(** * Kytos topology chart: drag constraints, visibility toggles, layouts

    Shallow embedding of [source/static/js/charts/topology.js].

    Modelling conventions.
    - A JavaScript number is a mathematical real or NaN ([option R], [None]
      standing for NaN); rounding and infinities are left out.  A field that
      holds a coordinate is a [jsval]: [undefined], [null] or a number.
      [Binary64] repeats the arithmetic of a switch drag on binary64 numbers,
      where rounding shows.
    - Node objects live in a store ([nodes], the array [simulation.nodes()]);
      an edge refers to its end points by their position in that store, which
      stands for object identity (d3 replaces [link.source] and [link.target]
      by the node objects themselves).
    - The drawn circles are a list of elements in document order, one per
      node, each with its [id] attribute and its two classes.  No other
      element of the page has an id that starts with "node-".
    - [d3.select(selector)] hands the selector to the selector engine of the
      browser ([document.querySelector]).  The engine is a parameter: given a
      selector and the circles it answers with no element, with one of the
      circles or with an element of the rest of the page, or it raises
      [SyntaxError].  The rest of the page stays as it is; a class written to
      one of its elements is not recorded.
    - [layout.nodes] is a finite map from names to saved records: the own
      properties of the object, which are what [JSON.stringify] sends to the
      store and what the store sends back.  A name that is not an own
      property can still name a member of [Object.prototype].
    - A handler that dereferences [null] raises [TypeError].  References
      always resolve in a loaded chart; a reference outside the store is
      treated like [null].
    - The requests to the layout store are asynchronous: a call returns the
      actions it performs itself, and the handlers it attached run once the
      request has resolved. *)

From Stdlib Require Import Floats.
From Stdlib Require Import Reals Lra Ascii String.
From stdpp Require Import base decidable option list strings gmap.

Open Scope string_scope.

(** ** JavaScript values and numbers *)

Module Js.

Definition number : Type := option R.

Inductive jsval : Type :=
  | JUndefined
  | JNull
  | JNum (n : number).

Definition num (r : R) : jsval := JNum (Some r).
Definition NaN : jsval := JNum None.

(** [v == undefined] *)
Definition eq_undefined (v : jsval) : bool :=
  match v with
  | JUndefined | JNull => true
  | JNum _ => false
  end.

(** ToNumber *)
Definition to_number (v : jsval) : number :=
  match v with
  | JUndefined => None
  | JNull => Some 0%R
  | JNum n => n
  end.

Definition lift2 (f : R -> R -> R) (a b : jsval) : jsval :=
  match to_number a, to_number b with
  | Some x, Some y => JNum (Some (f x y))
  | _, _ => JNum None
  end.

Definition lift1 (f : R -> R) (a : jsval) : jsval :=
  match to_number a with
  | Some x => JNum (Some (f x))
  | None => JNum None
  end.

Definition add : jsval -> jsval -> jsval := lift2 Rplus.
Definition sub : jsval -> jsval -> jsval := lift2 Rminus.
Definition mul : jsval -> jsval -> jsval := lift2 Rmult.

(** [Math.atan2(y, x)] on reals (signed zeros are not distinguished). *)
Definition atan2R (y x : R) : R :=
  if Rlt_dec 0 x then atan (y / x)
  else if Rlt_dec x 0 then
    if Rlt_dec y 0 then (atan (y / x) - PI)%R else (atan (y / x) + PI)%R
  else
    if Rlt_dec 0 y then (PI / 2)%R
    else if Rlt_dec y 0 then (- PI / 2)%R
    else 0%R.

Definition atan2 : jsval -> jsval -> jsval := lift2 atan2R.
Definition cos : jsval -> jsval := lift1 Rtrigo_def.cos.
Definition sin : jsval -> jsval := lift1 Rtrigo_def.sin.

End Js.

Import Js.

(** ** Identifier escaping *)

Definition colon : Ascii.ascii := ":"%char.
Definition underscore : Ascii.ascii := "_"%char.

(** [name.toString().replace(/:/g, '__')] *)
Fixpoint fix_name (name : string) : string :=
  match name with
  | EmptyString => EmptyString
  | String c rest =>
      if Ascii.eqb c colon
      then String underscore (String underscore (fix_name rest))
      else String c (fix_name rest)
  end.

(** [name.toString().replace(/\_\_/g, ':')]: leftmost matches, not
    overlapping. *)
Fixpoint unfix_name (name : string) : string :=
  match name with
  | EmptyString => EmptyString
  | String c rest =>
      match rest with
      | String d rest' =>
          if Ascii.eqb c underscore && Ascii.eqb d underscore
          then String colon (unfix_name rest')
          else String c (unfix_name rest)
      | EmptyString => String c EmptyString
      end
  end.

(** ** Data model *)

Module Node.
Record t : Type := mk {
  name : string;
  type : string;
  x : jsval;
  y : jsval;
  fx : jsval;
  fy : jsval;
  old_fx : jsval;
  old_fy : jsval
}.

Definition set_x (v : jsval) (n : t) : t :=
  mk (name n) (type n) v (y n) (fx n) (fy n) (old_fx n) (old_fy n).
Definition set_y (v : jsval) (n : t) : t :=
  mk (name n) (type n) (x n) v (fx n) (fy n) (old_fx n) (old_fy n).
Definition set_fx (v : jsval) (n : t) : t :=
  mk (name n) (type n) (x n) (y n) v (fy n) (old_fx n) (old_fy n).
Definition set_fy (v : jsval) (n : t) : t :=
  mk (name n) (type n) (x n) (y n) (fx n) v (old_fx n) (old_fy n).
Definition set_old_fx (v : jsval) (n : t) : t :=
  mk (name n) (type n) (x n) (y n) (fx n) (fy n) v (old_fy n).
Definition set_old_fy (v : jsval) (n : t) : t :=
  mk (name n) (type n) (x n) (y n) (fx n) (fy n) (old_fx n) v.
End Node.

Module Link.
(** [source] and [target] are references to node objects. *)
Record t : Type := mk {
  type : string;
  source : nat;
  target : nat
}.
End Link.

(** A drawn circle: its [id] attribute and the two classes the chart uses. *)
Module Circle.
Record t : Type := mk {
  id : string;
  downlight : bool;
  invisible : bool
}.

Definition set_downlight (b : bool) (c : t) : t := mk (id c) b (invisible c).
Definition set_invisible (b : bool) (c : t) : t := mk (id c) (downlight c) b.
End Circle.

(** [d3.event] of a drag gesture: the pointer position. *)
Module Event.
Record t : Type := mk { x : R; y : R }.
End Event.

Record state : Type := mkState {
  nodes : list Node.t;                (* simulation.nodes() *)
  links : list Link.t;                (* simulation.force('link').links() *)
  circles : list Circle.t;            (* the circle elements, document order *)
  hide_unused_interfaces : bool;      (* $('#hide_unused_interfaces')[0].checked *)
  hide_disconnected_hosts : bool      (* $('#hide_disconnected_hosts')[0].checked *)
}.

Definition set_nodes (ns : list Node.t) (st : state) : state :=
  mkState ns (links st) (circles st)
          (hide_unused_interfaces st) (hide_disconnected_hosts st).

Definition set_circles (cs : list Circle.t) (st : state) : state :=
  mkState (nodes st) (links st) cs
          (hide_unused_interfaces st) (hide_disconnected_hosts st).

(** Write through a reference to a node object. *)
Definition update_node (i : nat) (f : Node.t -> Node.t) (st : state) : state :=
  set_nodes (alter f i (nodes st)) st.

(** The [name] read through a reference. *)
Definition name_of (st : state) (i : nat) : option string :=
  Node.name <$> nodes st !! i.

(** ** Errors *)

(** What a handler can raise: [TypeError] when it dereferences [null],
    [SyntaxError] when the selector engine refuses a selector. *)
Inductive result (A : Type) : Type :=
| Ok (a : A)
| TypeError
| SyntaxError.
Arguments Ok {A} a.
Arguments TypeError {A}.
Arguments SyntaxError {A}.

Definition bind {A B} (r : result A) (k : A -> result B) : result B :=
  match r with
  | Ok a => k a
  | TypeError => TypeError
  | SyntaxError => SyntaxError
  end.

(** [$.each(array, callback)] for a callback that mutates shared state. *)
Definition each {A S : Type} (l : list A) (body : A -> S -> S) (s : S) : S :=
  foldl (fun acc a => body a acc) s l.

(** The same loop when the callback may throw. *)
Fixpoint each_r {A S : Type} (l : list A) (body : A -> S -> result S) (s : S)
  : result S :=
  match l with
  | [] => Ok s
  | a :: l' => bind (body a s) (each_r l' body)
  end.

(** ** Per-type tables *)

Definition size (type : string) : jsval :=
  if String.eqb type "switch" then num 20
  else if String.eqb type "interface" then num 5
  else if String.eqb type "host" then num 10
  else JUndefined.

Definition distance (type : string) : jsval :=
  if String.eqb type "link" then mul (num 20) (size "switch")
  else if String.eqb type "interface" then add (size "switch") (num 10)
  else if String.eqb type "host" then mul (num 5) (size "interface")
  else JUndefined.

(** ** Ownership look-ups *)

Definition get_interface_owner (st : state) (d : Node.t) : option nat :=
  each (links st)
       (fun link searched_switch =>
          if String.eqb (Link.type link) "interface"
             && bool_decide (name_of st (Link.target link) = Some (Node.name d))
          then Some (Link.source link)
          else searched_switch)
       None.

Definition get_switch_interfaces (st : state) (d : Node.t) : list nat :=
  each (links st)
       (fun link interfaces =>
          if String.eqb (Link.type link) "interface"
             && bool_decide (name_of st (Link.source link) = Some (Node.name d))
          then (interfaces ++ [Link.target link])%list
          else interfaces)
       [].

Definition get_nodes_by_type (st : state) (type : string) : list nat :=
  each (imap (fun index node => (index, node)) (nodes st))
       (fun item selected_nodes =>
          if String.eqb (Node.type (snd item)) type
          then (selected_nodes ++ [fst item])%list
          else selected_nodes)
       [].

Definition get_interfaces (st : state) : list nat :=
  get_nodes_by_type st "interface".

Definition get_hosts (st : state) : list nat :=
  get_nodes_by_type st "host".

Definition get_node_links (st : state) (node : nat) : list Link.t :=
  each (links st)
       (fun link found =>
          if bool_decide (Link.target link = node)
             || bool_decide (Link.source link = node)
          then (found ++ [link])%list
          else found)
       [].

(** ** Constraint engine *)

Definition radius_positioning (cx cy x y : jsval) : jsval * jsval :=
  let delta_x := sub x cx in
  let delta_y := sub y cy in
  let rad := atan2 delta_y delta_x in
  let new_x := add cx (mul (cos rad) (distance "interface")) in
  let new_y := add cy (mul (sin rad) (distance "interface")) in
  (new_x, new_y).

(** Body of the loop over the interfaces of a dragged switch. *)
Definition shift_interface (delta_x delta_y : jsval) (interface : Node.t)
  : Node.t :=
  let interface :=
    if eq_undefined (Node.fx interface)
    then Node.set_fy (Node.y interface)
           (Node.set_fx (Node.x interface) interface)
    else interface in
  let interface := Node.set_fx (add (Node.fx interface) delta_x) interface in
  Node.set_fy (add (Node.fy interface) delta_y) interface.

Definition dragstarted (d : nat) (st : state) : state :=
  match nodes st !! d with
  | None => st
  | Some nd =>
      let st :=
        if String.eqb (Node.type nd) "switch"
        then update_node d
               (fun n => Node.set_old_fy (Node.y n)
                           (Node.set_old_fx (Node.x n) n)) st
        else st in
      update_node d (fun n => Node.set_fy (Node.y n) (Node.set_fx (Node.x n) n))
                  st
  end.

(** The first four assignments of the switch branch of [dragged]. *)
Definition pin_switch (ev : Event.t) (d : Node.t) : Node.t :=
  let d := Node.set_old_fx (Node.fx d) d in
  let d := Node.set_old_fy (Node.fy d) d in
  let d := Node.set_fx (num (Event.x ev)) d in
  Node.set_fy (num (Event.y ev)) d.

Definition dragged (d : nat) (ev : Event.t) (st : state) : result state :=
  match nodes st !! d with
  | None => Ok st
  | Some nd =>
      if String.eqb (Node.type nd) "switch" then
        let st := update_node d (pin_switch ev) st in
        let d' := pin_switch ev nd in
        let delta_x := sub (Node.fx d') (Node.old_fx d') in
        let delta_y := sub (Node.fy d') (Node.old_fy d') in
        Ok (each (get_switch_interfaces st d')
                 (fun interface st =>
                    update_node interface (shift_interface delta_x delta_y) st)
                 st)
      else if String.eqb (Node.type nd) "interface" then
        match get_interface_owner st nd with
        | None => TypeError            (* owner.fx with owner === null *)
        | Some o =>
            match nodes st !! o with
            | None => TypeError
            | Some owner =>
                let '(cx, cy) :=
                  if eq_undefined (Node.fx owner)
                  then (Node.x owner, Node.y owner)
                  else (Node.fx owner, Node.fy owner) in
                let new_positions :=
                  radius_positioning cx cy (num (Event.x ev))
                                     (num (Event.y ev)) in
                Ok (update_node d
                      (fun n => Node.set_fy (snd new_positions)
                                  (Node.set_fx (fst new_positions) n)) st)
            end
        end
      else
        Ok (update_node d
              (fun n => Node.set_fy (num (Event.y ev))
                          (Node.set_fx (num (Event.x ev)) n)) st)
  end.

Definition release_node (d : nat) (st : state) : state :=
  match nodes st !! d with
  | None => st
  | Some nd =>
      let st := update_node d
                  (fun n => Node.set_fy JNull (Node.set_fx JNull n)) st in
      if String.eqb (Node.type nd) "switch" then
        each (get_switch_interfaces st nd)
             (fun interface st =>
                update_node interface
                  (fun n => Node.set_fy JNull (Node.set_fx JNull n)) st)
             st
      else st
  end.

(** ** The arithmetic of a switch drag on binary64 numbers *)

(** The switch branch of [dragged] once more, with the numbers the browser
    computes with: [d] is the pin of the dragged switch, [interfaces] the pins
    of the nodes its ownership edges target, all of them set. *)
Module Binary64.

End Binary64.

(** ** The stored layout *)

Module Layout.
Record node_data : Type := mkData {
  name : string;
  type : string;
  x : jsval;
  y : jsval;
  fx : jsval;
  fy : jsval;
  downlight : bool
}.

Record other_settings : Type := mkSettings {
  hide_unused_interfaces : bool;
  hide_disconnected_hosts : bool
}.

Record t : Type := mk {
  nodes : gmap string node_data;
  settings : other_settings
}.
End Layout.

(** The names every object answers to without owning them: the members of
    [Object.prototype]. *)
Definition inherited_property (name : string) : bool :=
  bool_decide (name ∈ ["constructor"; "toString"; "toLocaleString"; "valueOf";
                       "hasOwnProperty"; "isPrototypeOf";
                       "propertyIsEnumerable"; "__proto__";
                       "__defineGetter__"; "__defineSetter__";
                       "__lookupGetter__"; "__lookupSetter__"]).

(** What the script reads off a member of [Object.prototype]: none of the
    fields it asks for exists, so each reads [undefined]; handed to
    [classed], [undefined] removes the class.  The first two fields are never
    read. *)
Definition prototype_member : Layout.node_data :=
  Layout.mkData "" "" JUndefined JUndefined JUndefined JUndefined false.

(** [name in layout_nodes], and [layout_nodes[name]] when it holds: an own
    property first, else an inherited one. *)
Definition get_property (layout_nodes : gmap string Layout.node_data)
    (name : string) : option Layout.node_data :=
  match layout_nodes !! name with
  | Some restored_node => Some restored_node
  | None => if inherited_property name then Some prototype_member else None
  end.

(** [layout_nodes[name] = node_data] on an object literal: a new own
    property, except for ["__proto__"], whose setter replaces the prototype
    and stores no property. *)
Definition set_property (name : string) (node_data : Layout.node_data)
    (layout_nodes : gmap string Layout.node_data)
  : gmap string Layout.node_data :=
  if String.eqb name "__proto__" then layout_nodes
  else <[name := node_data]> layout_nodes.

(** [JSON.stringify] on a coordinate: a number that is not finite is written
    [null]; a field that is [undefined] is left out, and reads [undefined]
    again. *)
Definition json_value (v : jsval) : jsval :=
  match v with
  | JNum None => JNull
  | _ => v
  end.

Definition json_node_data (node_data : Layout.node_data) : Layout.node_data :=
  Layout.mkData (Layout.name node_data) (Layout.type node_data)
                (json_value (Layout.x node_data))
                (json_value (Layout.y node_data))
                (json_value (Layout.fx node_data))
                (json_value (Layout.fy node_data))
                (Layout.downlight node_data).

(** [JSON.stringify(layout)], read back: the layout as the store holds it
    and as a later [$.getJSON] returns it. *)
Definition JSON_stringify (layout : Layout.t) : Layout.t :=
  Layout.mk (json_node_data <$> Layout.nodes layout) (Layout.settings layout).

(** ** The selector engine *)

(** What [document.querySelector] answers: no element, one of the circles of
    the chart (by its place in document order), or an element of the rest of
    the page (with its id and classes). *)
Inductive selected : Type :=
| NoElement
| CircleAt (i : nat)
| OtherElement (e : Circle.t).

(** The engine maps a selector and the circles as they are drawn to its
    answer, and raises [SyntaxError] on a selector it cannot parse. *)
Definition selector_engine : Type :=
  string -> list Circle.t -> result selected.

(** ["node-" + d.type + "-" + fix_name(d.name)] *)
Definition node_id (type name : string) : string :=
  "node-" ++ type ++ "-" ++ fix_name name.

(** [d3.selectAll("[id^='" + id_prefix + "']").classed(cls, value)]: every
    element whose id starts with the prefix. *)
Definition classed_all (id_prefix : string) (set : Circle.t -> Circle.t)
    (st : state) : state :=
  set_circles
    ((fun c => if String.prefix id_prefix (Circle.id c) then set c else c)
       <$> circles st)
    st.

Definition highlight_all_switches (st : state) : state :=
  classed_all "node-switch-" (Circle.set_downlight false) st.

Definition highlight_all_interfaces (st : state) : state :=
  classed_all "node-interface-" (Circle.set_downlight false) st.


Definition downlight_all_interfaces (st : state) : state :=
  classed_all "node-interface-" (Circle.set_downlight true) st.

(** What [highlight_all_nodes] does to the rest of the page. *)
Inductive page_action : Type :=
| SetHtml (selector html : string)
| Click (selector : string).

Definition highlight_all_nodes (st : state) : state * list page_action :=
  (classed_all "node-" (Circle.set_downlight false) st,
   [SetHtml "#context-target" "Loading ..."; Click "#tab_terminal_button a"]).

(** What the script and the page exchange around a request to the store. *)
Inductive action : Type :=
| Alert (message : string)
| ModalHide (selector : string)
| AjaxPost (url : string) (data : Layout.t)
| AjaxGet (url : string)
| ControlEmpty (selector : string)
| ControlAppend (selector : string) (option_html : string)
| ControlAppendOption (selector : string) (value : string).

(** What the page observes, in order: the script's own actions, and the
    moment a pending request resolves. *)
Inductive observation : Type :=
| Did (a : action)
| Resolved (success : bool).

Definition layouts_url : string :=
  "http://127.0.0.1:5000/kytos/web/topology/layouts/".

Definition dquote : string := String (Ascii.ascii_of_nat 34) EmptyString.

Section Page.

(** The selector engine of the browser the chart runs in. *)
Variable query : selector_engine.

(** ** Drawn primitives and visibility toggles *)

(** [d3.select("#" + id)] *)
Definition d3_select (id : string) (cs : list Circle.t) : result selected :=
  query ("#" ++ id) cs.

(** [d3.select("#" + id).classed(cls, value)]; an empty selection is left
    alone, and so is the chart when the element is not one of its circles. *)
Definition classed_set (id : string) (set : Circle.t -> Circle.t) (st : state)
  : result state :=
  bind (d3_select id (circles st))
       (fun selection =>
          match selection with
          | CircleAt i => Ok (set_circles (alter set i (circles st)) st)
          | NoElement | OtherElement _ => Ok st
          end).

(** [d3.select("#" + id).classed(cls)]; reading a class of an empty selection
    dereferences a null element. *)
Definition classed_get (id : string) (get : Circle.t -> bool) (st : state)
  : result bool :=
  bind (d3_select id (circles st))
       (fun selection =>
          match selection with
          | CircleAt i =>
              match circles st !! i with
              | Some c => Ok (get c)
              | None => TypeError
              end
          | OtherElement e => Ok (get e)
          | NoElement => TypeError
          end).

(** The callback of the loop over the interfaces. *)
Definition hide_if_unused (hide : bool) (interface : nat) (st : state)
  : result state :=
  let unused :=
    each (get_node_links st interface)
         (fun link unused =>
            if String.eqb (Link.type link) "link" then false else unused)
         true in
  if unused then
    match nodes st !! interface with
    | Some n =>
        classed_set ("node-interface-" ++ fix_name (Node.name n))
                    (Circle.set_invisible hide) st
    | None => Ok st
    end
  else Ok st.

Definition toggle_unused_interfaces (hide : bool) (st : state) : result state :=
  each_r (get_interfaces st) (hide_if_unused hide) st.

(** The callback of the loop over the hosts. *)
Definition hide_if_disconnected (hide : bool) (host : nat) (st : state)
  : result state :=
  let found := get_node_links st host in
  if Nat.eqb (length found) 0 then
    match nodes st !! host with
    | Some n =>
        classed_set ("node-host-" ++ fix_name (Node.name n))
                    (Circle.set_invisible hide) st
    | None => Ok st
    end
  else Ok st.

Definition toggle_disconnected_hosts (hide : bool) (st : state)
  : result state :=
  each_r (get_hosts st) (hide_if_disconnected hide) st.

(** Modelled from the spec: the click handlers of the two check boxes live in
    the page template, which is not part of the chart script.  A click flips
    the box and runs the matching toggle with the new value ("synthesizing a
    toggle action"). *)
Definition click_hide_unused_interfaces (st : state) : result state :=
  let checked := negb (hide_unused_interfaces st) in
  toggle_unused_interfaces checked
    (mkState (nodes st) (links st) (circles st) checked
             (hide_disconnected_hosts st)).

Definition click_hide_disconnected_hosts (st : state) : result state :=
  let checked := negb (hide_disconnected_hosts st) in
  toggle_disconnected_hosts checked
    (mkState (nodes st) (links st) (circles st)
             (hide_unused_interfaces st) checked).

(** ** Layout persistence *)

(** The callback of the loop of [get_current_layout]. *)
Definition capture_node (st : state) (node : Node.t)
    (layout_nodes : gmap string Layout.node_data)
  : result (gmap string Layout.node_data) :=
  bind (classed_get (node_id (Node.type node) (Node.name node))
                    Circle.downlight st)
       (fun downlight =>
          let node_data :=
            Layout.mkData (Node.name node) (Node.type node)
                          (Node.x node) (Node.y node)
                          (Node.fx node) (Node.fy node) downlight in
          Ok (set_property (Node.name node) node_data layout_nodes)).

Definition get_current_layout (st : state) : result Layout.t :=
  bind (each_r (nodes st) (capture_node st) ∅)
       (fun layout_nodes =>
          Ok (Layout.mk layout_nodes
                (Layout.mkSettings (hide_unused_interfaces st)
                                   (hide_disconnected_hosts st)))).

(** The callback [restore_layout] hands to [$.getJSON], run on the layout the
    store returned: first the body of its loop over the nodes, then the
    whole.  [simulation.restart()] at its end only re-arms the tick timer. *)
Definition restore_node (layout : Layout.t) (idx : nat) (st : state)
  : result state :=
  match nodes st !! idx with
  | None => Ok st
  | Some node =>
      match get_property (Layout.nodes layout) (Node.name node) with
      | Some restored_node =>
          let st :=
            update_node idx
              (fun n =>
                 Node.set_fy (Layout.fy restored_node)
                   (Node.set_fx (Layout.fx restored_node)
                      (Node.set_y (Layout.y restored_node)
                         (Node.set_x (Layout.x restored_node) n))))
              st in
          classed_set (node_id (Node.type node) (Node.name node))
                      (Circle.set_downlight (Layout.downlight restored_node))
                      st
      | None => Ok st
      end
  end.

Definition restore_layout (layout : Layout.t) (st : state) : result state :=
  bind (each_r (seq 0 (length (nodes st))) (restore_node layout) st)
       (fun st =>
          bind (if negb (Bool.eqb (Layout.hide_unused_interfaces
                                     (Layout.settings layout))
                                  (hide_unused_interfaces st))
                then click_hide_unused_interfaces st
                else Ok st)
               (fun st =>
                  if negb (Bool.eqb (Layout.hide_disconnected_hosts
                                       (Layout.settings layout))
                                    (hide_disconnected_hosts st))
                  then click_hide_disconnected_hosts st
                  else Ok st)).

(** ** Requests to the layout store *)

(** The synchronous part of [save_layout]; [layout_name] is the value of the
    name field. *)
Definition save_layout (layout_name : string) (st : state)
  : result (list action) :=
  if String.eqb layout_name "" then
    Ok [Alert "Please, choose a name for the layout."]
  else
    bind (get_current_layout st)
         (fun layout =>
            let data := JSON_stringify layout in
            Ok [AjaxPost (layouts_url ++ layout_name) data;
                ModalHide "#saveLayout"]).

(** The handlers [save_layout] attached to its request: the [success] option,
    then the [.done] handler; nothing is attached for a failure. *)
Definition save_layout_handlers (layout_name : string) (success : bool)
  : list action :=
  if success then
    [Alert ("Layout " ++ layout_name ++ " saved.");
     ModalHide "#saveLayout";
     Alert ("Layout " ++ layout_name ++ " saved.");
     ModalHide "#saveLayout"]
  else [].

(** One whole save: the call, the request resolving, the handlers. *)
Definition save_layout_run (layout_name : string) (st : state) (success : bool)
  : result (list observation) :=
  bind (save_layout layout_name st)
       (fun sync =>
          Ok ((Did <$> sync)
                ++ (if existsb (fun a => match a with AjaxPost _ _ => true
                                                 | _ => false end) sync
                    then Resolved success
                           :: (Did <$> save_layout_handlers layout_name success)
                    else []))%list).

(** ** Highlighting one switch *)




End Page.

(** The body the store sent for the list of names: nothing ([undefined] or
    [null]) or an array. *)
Inductive names_response : Type :=
| NoBody
| Names (layouts : list string).

(** The [success] handler of [load_layouts]. *)
Definition load_layouts_success (layouts : names_response) : list action :=
  match layouts with
  | NoBody => [Alert "There isn't any saved layout to be loaded"]
  | Names items =>
      ControlEmpty "#savedLayouts"
      :: ControlAppend "#savedLayouts"
           ("<option selected=" ++ dquote ++ "true" ++ dquote
            ++ " disabled=" ++ dquote ++ "disabled" ++ dquote
            ++ ">Selecione seu Layout</option>")
      :: each items
              (fun item appended =>
                 (appended ++ [ControlAppendOption "#savedLayouts" item])%list)
              []
  end.

(** ** Vocabulary of the statements *)

(** An underscore must not be directly followed by an underscore or a
    colon. *)
Definition well_separated (c : Ascii.ascii) (rest : string) : bool :=
  if Ascii.eqb c underscore then
    match rest with
    | String d _ => negb (Ascii.eqb d underscore) && negb (Ascii.eqb d colon)
    | EmptyString => true
    end
  else true.

(** The names on which escaping can be undone: every character is well
    separated from the next. *)
Fixpoint reversible (name : string) : bool :=
  match name with
  | EmptyString => true
  | String c rest => well_separated c rest && reversible rest
  end.

Definition owns_edge (st : state) (name : string) (link : Link.t) : bool :=
  String.eqb (Link.type link) "interface"
  && bool_decide (name_of st (Link.source link) = Some name).

Definition owned_edge (st : state) (name : string) (link : Link.t) : bool :=
  String.eqb (Link.type link) "interface"
  && bool_decide (name_of st (Link.target link) = Some name).

(** Where a node currently is: its pin when it has one, else its simulated
    position. *)
Definition current_position (n : Node.t) : jsval * jsval :=
  if eq_undefined (Node.fx n) then (Node.x n, Node.y n)
  else (Node.fx n, Node.fy n).

Definition euclidean_distance (p q : R * R) : R :=
  sqrt ((fst p - fst q) * (fst p - fst q) + (snd p - snd q) * (snd p - snd q)).

Definition node_ids (st : state) : list string :=
  (fun n => node_id (Node.type n) (Node.name n)) <$> nodes st.

Definition circle_ids (st : state) : list string :=
  Circle.id <$> circles st.

(** Every node has its circle, in the order of the nodes (the chart appends
    one circle per datum of [graph.nodes]). *)
Definition circles_match (st : state) : Prop :=
  circle_ids st = node_ids st.

(** The three node types of a topology. *)
Definition known_type (type : string) : bool :=
  String.eqb type "switch" || String.eqb type "interface"
  || String.eqb type "host".

(** The data model's naming discipline: names are unique, types are the
    known ones, and names survive escaping. *)
Definition well_named (st : state) : Prop :=
  NoDup (Node.name <$> nodes st)
  /\ forall n, n ∈ nodes st ->
                known_type (Node.type n) = true
                /\ reversible (Node.name n) = true.

(** Some edge of type "link" has the node as an end point. *)
Definition has_link_edge (st : state) (i : nat) : bool :=
  existsb (fun l => String.eqb (Link.type l) "link"
                    && (Nat.eqb (Link.source l) i || Nat.eqb (Link.target l) i))
          (links st).

(** An interface node with zero "link" edges. *)
Definition unused_interface (st : state) (i : nat) : bool :=
  match nodes st !! i with
  | Some n => String.eqb (Node.type n) "interface" && negb (has_link_edge st i)
  | None => false
  end.

Definition downlights (st : state) : list bool :=
  Circle.downlight <$> circles st.

(** What [get_current_layout] stores for a node whose circle has the
    downlight class [dl]. *)
Definition snapshot (node : Node.t) (dl : bool) : Layout.node_data :=
  Layout.mkData (Node.name node) (Node.type node) (Node.x node) (Node.y node)
                (Node.fx node) (Node.fy node) dl.

(** Releasing one node. *)
Definition unpin (n : Node.t) : Node.t :=
  Node.set_fy JNull (Node.set_fx JNull n).

(** A node after a layout was merged into it. *)
Definition restore_fields (layout : Layout.t) (n : Node.t) : Node.t :=
  match get_property (Layout.nodes layout) (Node.name n) with
  | Some r =>
      Node.mk (Node.name n) (Node.type n)
              (Layout.x r) (Layout.y r) (Layout.fx r) (Layout.fy r)
              (Node.old_fx n) (Node.old_fy n)
  | None => n
  end.

Fixpoint has_colon (s : string) : bool :=
  match s with
  | EmptyString => false
  | String c rest => Ascii.eqb c colon || has_colon rest
  end.

(** A host node without any edge. *)
Definition disconnected_host (st : state) (i : nat) : bool :=
  match nodes st !! i with
  | Some n =>
      String.eqb (Node.type n) "host"
      && negb (existsb (fun l => Nat.eqb (Link.source l) i
                                 || Nat.eqb (Link.target l) i) (links st))
  | None => false
  end.

(** What the simulation owns of a node: the drag handlers never write it. *)
Definition simulated (n : Node.t) : string * string * jsval * jsval :=
  (Node.name n, Node.type n, Node.x n, Node.y n).

(** The identity of a node: what its circle's id is made of. *)
Definition identity (n : Node.t) : string * string :=
  (Node.name n, Node.type n).

(** The downlight a layout prescribes for the circle of node [j]. *)
Definition restore_downlight (layout : Layout.t) (st : state) (j : nat)
    (c : Circle.t) : Circle.t :=
  match nodes st !! j with
  | Some n =>
      match get_property (Layout.nodes layout) (Node.name n) with
      | Some r => Circle.set_downlight (Layout.downlight r) c
      | None => c
      end
  | None => c
  end.

(** *** Identifiers and the selector engine *)

(** A letter, a digit, an underscore or a hyphen. *)
Definition name_char (c : Ascii.ascii) : bool :=
  let n := Ascii.nat_of_ascii c in
  (Nat.leb 48 n && Nat.leb n 57)
  || (Nat.leb 65 n && Nat.leb n 90)
  || (Nat.leb 97 n && Nat.leb n 122)
  || Ascii.eqb c underscore
  || Ascii.eqb c "-"%char.

Fixpoint all_chars (p : Ascii.ascii -> bool) (s : string) : bool :=
  match s with
  | EmptyString => true
  | String c rest => p c && all_chars p rest
  end.

(** An id of the chart that a selector can name as it is written: it starts
    with "node-" and holds name characters only, so that "#" followed by the
    id is an id selector and nothing more. *)
Definition plain_id (id : string) : bool :=
  String.prefix "node-" id && all_chars name_char id.

(** Every node of the chart has a plain id. *)
Definition plain_ids (st : state) : bool :=
  forallb (fun n => plain_id (node_id (Node.type n) (Node.name n))) (nodes st).

(** The first circle in document order that carries the id. *)
Definition first_circle (id : string) (cs : list Circle.t) : selected :=
  match list_find (fun c => Circle.id c = id) cs with
  | Some (i, _) => CircleAt i
  | None => NoElement
  end.

(** What is asked of the selector engine: on the id selector of a plain id
    it answers with the first element carrying that id, which is a circle or
    nothing.  Nothing is asked about any other selector. *)
Definition engine_ok (query : selector_engine) : Prop :=
  forall id cs,
    plain_id id = true -> query ("#" ++ id) cs = Ok (first_circle id cs).

(** What a loop that only writes classes keeps of the chart [st0]. *)
Definition same_chart (st0 s : state) : Prop :=
  nodes s = nodes st0 /\ links s = links st0
  /\ circle_ids s = circle_ids st0
  /\ hide_unused_interfaces s = hide_unused_interfaces st0
  /\ hide_disconnected_hosts s = hide_disconnected_hosts st0.

(** The chart after a class was written on the circles picked by [sel]. *)
Definition classed_where (sel : nat -> bool) (set : Circle.t -> Circle.t)
    (st : state) : state :=
  set_circles (imap (fun k c => if sel k then set c else c) (circles st)) st.



(** The chart after the loop of [restore_layout], when every write of a
    class reaches the circle of its node. *)
Definition restored (layout : Layout.t) (st : state) : state :=
  mkState (restore_fields layout <$> nodes st) (links st)
          (imap (restore_downlight layout st) (circles st))
          (hide_unused_interfaces st) (hide_disconnected_hosts st).

(** ** Sample charts *)

(** The circles appended for the nodes of the fetched graph. *)
Definition render (ns : list Node.t) : list Circle.t :=
  (fun d => Circle.mk (node_id (Node.type d) (Node.name d)) false false) <$> ns.

Definition fresh_node (type name : string) (x y : R) : Node.t :=
  Node.mk name type (num x) (num y) JUndefined JUndefined JUndefined JUndefined.

Definition pinned_node (type name : string) (x y : R) : Node.t :=
  Node.mk name type (num x) (num y) (num x) (num y) JUndefined JUndefined.

(** One switch with two interfaces, the first one linked to a host. *)
Definition sample_nodes : list Node.t :=
  [ pinned_node "switch" "00:00:00:00:00:00:00:01" 100 100;
    fresh_node "interface" "s1-eth1" 130 100;
    pinned_node "interface" "s1-eth2" 100 130;
    fresh_node "host" "h1" 200 100 ].

Definition sample_links : list Link.t :=
  [ Link.mk "interface" 0 1;
    Link.mk "interface" 0 2;
    Link.mk "link" 1 3 ].

Definition sample : state :=
  mkState sample_nodes sample_links (render sample_nodes) false false.

(** A malformed graph: the interface has no ownership edge. *)
Definition ownerless_nodes : list Node.t :=
  [ pinned_node "switch" "sw1" 100 100;
    pinned_node "interface" "sw1-eth1" 130 100 ].

Definition ownerless : state :=
  mkState ownerless_nodes [] (render ownerless_nodes) false false.

(** A stored layout that only knows the switch of the sample topology. *)
Definition switch_only_layout : Layout.t :=
  Layout.mk
    {[ "00:00:00:00:00:00:00:01" :=
         Layout.mkData "00:00:00:00:00:00:00:01" "switch"
                       (num 50) (num 50) (num 50) (num 50) true ]}
    (Layout.mkSettings true false).

(** The sample topology after its only "link" edge went away. *)
Definition unlinked : state :=
  mkState sample_nodes
          [Link.mk "interface" 0 1; Link.mk "interface" 0 2]
          (render sample_nodes) false false.

(** A selector engine that reads the id selectors of plain ids and refuses
    every other selector. *)
Definition id_only_engine : selector_engine :=
  fun selector cs =>
    match selector with
    | String "#" id =>
        if plain_id id then Ok (first_circle id cs) else SyntaxError
    | _ => SyntaxError
    end.










(** * Properties *)

(** ** Identifier escaping *)

Example fix_name_dpid : fix_name "00:01" = "00__01".
Proof. reflexivity. Qed.

Example unfix_name_dpid : unfix_name "00__01" = "00:01".
Proof. reflexivity. Qed.

Section Escaping.

Lemma unfix_name_other c s :
  c <> underscore ->
  unfix_name (String c s) = String c (unfix_name s).
Proof.
  intros Hc. apply Ascii.eqb_neq in Hc.
  destruct s as [|d s]; simpl; [reflexivity|].
  rewrite Hc. reflexivity.
Qed.

Lemma unfix_name_pair s :
  unfix_name (String underscore (String underscore s))
  = String colon (unfix_name s).
Proof. reflexivity. Qed.

Lemma unfix_name_single d s :
  d <> underscore ->
  unfix_name (String underscore (String d s))
  = String underscore (unfix_name (String d s)).
Proof.
  intros Hd. apply Ascii.eqb_neq in Hd.
  change (unfix_name (String underscore (String d s)))
    with (if Ascii.eqb underscore underscore && Ascii.eqb d underscore
          then String colon (unfix_name s)
          else String underscore (unfix_name (String d s))).
  rewrite Hd. reflexivity.
Qed.

Lemma fix_name_colon s :
  fix_name (String colon s) = String underscore (String underscore (fix_name s)).
Proof. reflexivity. Qed.

Lemma fix_name_other c s :
  c <> colon -> fix_name (String c s) = String c (fix_name s).
Proof.
  intros Hc. apply Ascii.eqb_neq in Hc. simpl. rewrite Hc. reflexivity.
Qed.

Lemma colon_not_underscore : colon <> underscore.
Proof. discriminate. Qed.

(** Escaping then unescaping a name that starts with a colon or with any
    character but an underscore peels that character off. *)
Lemma unfix_fix_step c s :
  c <> underscore ->
  unfix_name (fix_name (String c s)) = String c (unfix_name (fix_name s)).
Proof.
  intros Hc. destruct (Ascii.ascii_dec c colon) as [->|Hcolon].
  - rewrite fix_name_colon. apply unfix_name_pair.
  - rewrite fix_name_other by assumption. apply unfix_name_other. assumption.
Qed.

End Escaping.

(** C4, as stated, fails: a name that already holds two underscores comes
    back with a colon in their place. *)
Lemma unfix_fix_name_counterexample :
  unfix_name (fix_name "s1__eth1") <> "s1__eth1".
Proof. vm_compute. discriminate. Qed.

(** One character of a round trip: the head comes back and the tail is a
    round trip exactly when the head is well separated and the tail comes
    back. *)
Lemma unfix_fix_name_head c r :
  unfix_name (fix_name (String c r)) = String c r
  <-> well_separated c r = true /\ unfix_name (fix_name r) = r.
Proof.
  unfold well_separated.
  destruct (Ascii.ascii_dec c underscore) as [->|Hc].
  - change (Ascii.eqb underscore underscore) with true. cbv iota.
    rewrite fix_name_other by (symmetry; apply colon_not_underscore).
    destruct r as [|d r']; [split; [by split|reflexivity]|].
    destruct (Ascii.ascii_dec d underscore) as [->|Hd].
    + rewrite fix_name_other by (symmetry; apply colon_not_underscore).
      rewrite unfix_name_pair.
      split; [intros H; discriminate H | intros [H _]; discriminate H].
    + destruct (Ascii.ascii_dec d colon) as [->|Hd'].
      * rewrite fix_name_colon, unfix_name_pair.
        split; [intros H; discriminate H | intros [H _]; discriminate H].
      * assert (Hhead : fix_name (String d r') = String d (fix_name r'))
          by (apply fix_name_other; assumption).
        rewrite Hhead, unfix_name_single, <- Hhead by assumption.
        apply Ascii.eqb_neq in Hd, Hd'. rewrite Hd, Hd'. simpl.
        split.
        -- intros H. injection H as H. by split.
        -- intros [_ H]. by rewrite H.
  - rewrite unfix_fix_step by assumption.
    apply Ascii.eqb_neq in Hc. rewrite Hc.
    split.
    + intros H. injection H as H. by split.
    + intros [_ H]. by rewrite H.
Qed.

Lemma unfix_fix_name_reversible n :
  reversible n = true -> unfix_name (fix_name n) = n.
Proof.
  induction n as [|c r IH]; [reflexivity|].
  simpl reversible. intros H. apply andb_true_iff in H as [Hc Hr].
  apply unfix_fix_name_head. split; [exact Hc | exact (IH Hr)].
Qed.

(** Escaping is injective on those names. *)
Lemma fix_name_inj a b :
  reversible a = true -> reversible b = true ->
  fix_name a = fix_name b -> a = b.
Proof.
  intros Ha Hb Hab.
  rewrite <- (unfix_fix_name_reversible a Ha),
          <- (unfix_fix_name_reversible b Hb).
  by rewrite Hab.
Qed.

(** C4 (amended): [unfix_name (fix_name n) = n] holds exactly for the
    names in which no underscore is directly followed by an underscore or a
    colon; in particular for every name without underscores. *)
Theorem unfix_fix_name_iff (n : string) :
  unfix_name (fix_name n) = n <-> reversible n = true.
Proof.
  induction n as [|c r IH]; [split; reflexivity|].
  rewrite unfix_fix_name_head, IH. simpl reversible.
  symmetry. apply andb_true_iff.
Qed.

(** ** Loops and writes through references *)

Section Loops.
Context {A S : Type}.

Lemma each_nil (body : A -> S -> S) s : each [] body s = s.
Proof. reflexivity. Qed.

Lemma each_cons a l (body : A -> S -> S) s :
  each (a :: l) body s = each l body (body a s).
Proof. reflexivity. Qed.

Lemma each_app l1 l2 (body : A -> S -> S) s :
  each (l1 ++ l2)%list body s = each l2 body (each l1 body s).
Proof. unfold each. apply foldl_app. Qed.

(** A property the loop body preserves holds after the loop. *)
Lemma each_invariant (P : S -> Prop) l (body : A -> S -> S) s :
  (forall a s, a ∈ l -> P s -> P (body a s)) -> P s -> P (each l body s).
Proof.
  revert s. induction l as [|a l IH]; intros s Hbody Hs; [exact Hs|].
  rewrite each_cons. apply IH.
  - intros b s' Hb. apply Hbody. by right.
  - apply Hbody; [by left | exact Hs].
Qed.
End Loops.

(** A loop that pushes the selected items is a filter. *)
Lemma each_push_filter {A B : Type} (sel : A -> bool) (f : A -> B) l acc :
  each l (fun a found => if sel a then (found ++ [f a])%list else found) acc
  = (acc ++ (f <$> filter (fun a => sel a = true) l))%list.
Proof.
  revert acc. induction l as [|a l IH]; intros acc.
  - rewrite each_nil. simpl. by rewrite app_nil_r.
  - rewrite each_cons, IH. rewrite filter_cons.
    destruct (sel a) eqn:Ha.
    + rewrite decide_True by reflexivity. rewrite fmap_cons.
      by rewrite <- app_assoc.
    + rewrite decide_False by discriminate. reflexivity.
Qed.

(** A write that keeps a projection of the items keeps the projected list. *)
Lemma fmap_alter_preserved {A B : Type} (f : A -> B) (g : A -> A) i (l : list A) :
  (forall a, f (g a) = f a) -> f <$> alter g i l = f <$> l.
Proof.
  intros Hfg. apply list_eq. intros k. rewrite !list_lookup_fmap.
  destruct (decide (i = k)) as [->|Hik].
  - rewrite list_lookup_alter_eq. destruct (l !! k); simpl; [|done].
    by rewrite Hfg.
  - by rewrite list_lookup_alter_ne.
Qed.

(** A write that does not change the item it reaches changes nothing. *)
Lemma alter_same {A : Type} (g : A -> A) i (l : list A) :
  (forall a, l !! i = Some a -> g a = a) -> alter g i l = l.
Proof.
  intros Hg. apply list_eq. intros k.
  destruct (decide (i = k)) as [->|Hik].
  - rewrite list_lookup_alter_eq. destruct (l !! k) eqn:Hk; simpl; [|done].
    by rewrite Hg.
  - by rewrite list_lookup_alter_ne.
Qed.

Section Store.

Lemma nodes_update_node i f st :
  nodes (update_node i f st) = alter f i (nodes st).
Proof. reflexivity. Qed.

Lemma lookup_update_node_eq i f st :
  nodes (update_node i f st) !! i = f <$> nodes st !! i.
Proof. apply list_lookup_alter_eq. Qed.

Lemma lookup_update_node_ne i j f st :
  i <> j -> nodes (update_node i f st) !! j = nodes st !! j.
Proof. apply list_lookup_alter_ne. Qed.

Lemma name_of_update_node i f st j :
  (forall n, Node.name (f n) = Node.name n) ->
  name_of (update_node i f st) j = name_of st j.
Proof.
  intros Hf. unfold name_of. destruct (decide (i = j)) as [->|Hij].
  - rewrite lookup_update_node_eq. destruct (nodes st !! j); simpl; [|done].
    by rewrite Hf.
  - by rewrite lookup_update_node_ne.
Qed.


Lemma each_update_frame (g : Node.t -> Node.t) l st :
  let st' := each l (fun i st => update_node i g st) st in
  links st' = links st /\ circles st' = circles st
  /\ hide_unused_interfaces st' = hide_unused_interfaces st
  /\ hide_disconnected_hosts st' = hide_disconnected_hosts st.
Proof.
  simpl. apply (each_invariant (fun s =>
    links s = links st /\ circles s = circles st
    /\ hide_unused_interfaces s = hide_unused_interfaces st
    /\ hide_disconnected_hosts s = hide_disconnected_hosts st)); [|done].
  intros a s _ H. exact H.
Qed.

End Store.

(** ** Ownership look-ups, in closed form *)

Lemma get_switch_interfaces_filter st d :
  get_switch_interfaces st d
  = Link.target <$> filter (fun l => owns_edge st (Node.name d) l = true)
                           (links st).
Proof.
  unfold get_switch_interfaces.
  exact (each_push_filter (owns_edge st (Node.name d)) Link.target (links st) []).
Qed.

Lemma elem_of_get_switch_interfaces st d j :
  j ∈ get_switch_interfaces st d <->
  exists l, l ∈ links st /\ Link.type l = "interface"
            /\ name_of st (Link.source l) = Some (Node.name d)
            /\ Link.target l = j.
Proof.
  rewrite get_switch_interfaces_filter, list_elem_of_fmap.
  split.
  - intros (l & -> & Hl). apply list_elem_of_filter in Hl as [Hsel Hl].
    unfold owns_edge in Hsel. apply andb_true_iff in Hsel as [Ht Hs].
    apply String.eqb_eq in Ht. apply bool_decide_eq_true in Hs. eauto.
  - intros (l & Hl & Ht & Hs & <-). exists l. split; [done|].
    apply list_elem_of_filter. split; [|done].
    unfold owns_edge. rewrite Ht, Hs. simpl.
    by rewrite bool_decide_true.
Qed.

Lemma get_switch_interfaces_ext st1 st2 d1 d2 :
  links st1 = links st2 ->
  (forall j, name_of st1 j = name_of st2 j) ->
  Node.name d1 = Node.name d2 ->
  get_switch_interfaces st1 d1 = get_switch_interfaces st2 d2.
Proof.
  intros Hl Hn Hd. rewrite !get_switch_interfaces_filter, Hl, Hd.
  f_equal. apply list_filter_iff. intros l. unfold owns_edge. by rewrite Hn.
Qed.

(** The owner is the source of the last ownership edge that targets the
    name; there is none exactly when no such edge exists. *)
Lemma get_interface_owner_last st d :
  get_interface_owner st d
  = last (Link.source <$> filter (fun l => owned_edge st (Node.name d) l = true)
                                 (links st)).
Proof.
  unfold get_interface_owner.
  assert (H : forall l acc,
    each l (fun link searched_switch =>
              if owned_edge st (Node.name d) link
              then Some (Link.source link) else searched_switch) acc
    = match last (Link.source <$>
                    filter (fun l => owned_edge st (Node.name d) l = true) l)
      with
      | Some o => Some o
      | None => acc
      end).
  { induction l as [|a l IH]; intros acc; [reflexivity|].
    rewrite each_cons, IH, filter_cons.
    destruct (owned_edge st (Node.name d) a) eqn:Ha.
    - rewrite decide_True by reflexivity. rewrite fmap_cons, last_cons.
      by destruct (last _).
    - rewrite decide_False by discriminate. reflexivity. }
  unfold owned_edge in H. rewrite H.
  by destruct (last _).
Qed.

Lemma get_interface_owner_None st d :
  get_interface_owner st d = None <->
  forall l, l ∈ links st -> Link.type l = "interface" ->
            name_of st (Link.target l) <> Some (Node.name d).
Proof.
  rewrite get_interface_owner_last, last_None.
  split.
  - intros Hnil l Hl Ht Hn.
    assert (Hin : l ∈ filter (fun l => owned_edge st (Node.name d) l = true)
                             (links st)).
    { apply list_elem_of_filter. split; [|done].
      unfold owned_edge. rewrite Ht, Hn. simpl. by rewrite bool_decide_true. }
    apply fmap_nil_inv in Hnil. rewrite Hnil in Hin.
    by apply not_elem_of_nil in Hin.
  - intros Hno.
    replace (filter (fun l => owned_edge st (Node.name d) l = true) (links st))
      with (@nil Link.t); [reflexivity|].
    symmetry. apply elem_of_nil_inv. intros l Hl.
    apply list_elem_of_filter in Hl as [Hsel Hl].
    unfold owned_edge in Hsel. apply andb_true_iff in Hsel as [Ht Hs].
    apply String.eqb_eq in Ht. apply bool_decide_eq_true in Hs.
    exact (Hno l Hl Ht Hs).
Qed.

(** ** Closed goals about explicit lists *)

Ltac solve_not_elem :=
  repeat (apply not_elem_of_cons; split; [discriminate|]);
  apply not_elem_of_nil.

Ltac solve_NoDup :=
  repeat (apply NoDup_cons; split; [solve_not_elem|]);
  apply NoDup_nil_2.

(** ** Releasing a pin *)

(** C10: a double click on an interface node sets that node's [fx] and [fy]
    to null and leaves everything else as it was: its [x], [y], every other
    node (its owner and its siblings included), the edges, the circles and
    the two check boxes.  The released interface gets no ring position. *)
Theorem release_interface_only_own_pin (st : state) (d : nat) (nd : Node.t) :
  nodes st !! d = Some nd ->
  Node.type nd = "interface" ->
  nodes (release_node d st) !! d
    = Some (Node.mk (Node.name nd) (Node.type nd) (Node.x nd) (Node.y nd)
                    JNull JNull (Node.old_fx nd) (Node.old_fy nd))
  /\ (forall j, j <> d -> nodes (release_node d st) !! j = nodes st !! j)
  /\ links (release_node d st) = links st
  /\ circles (release_node d st) = circles st
  /\ hide_unused_interfaces (release_node d st) = hide_unused_interfaces st
  /\ hide_disconnected_hosts (release_node d st) = hide_disconnected_hosts st.
Proof.
  intros Hd Htype. unfold release_node. rewrite Hd.
  destruct (String.eqb (Node.type nd) "switch") eqn:Hsw;
    [rewrite Htype in Hsw; discriminate Hsw|].
  split; [|split; [|done]].
  - rewrite lookup_update_node_eq, Hd. reflexivity.
  - intros j Hj. by rewrite lookup_update_node_ne.
Qed.

Lemma release_interface_only_own_pin_witness :
  nodes (release_node 2 sample) !! 2
    = Some (Node.mk "s1-eth2" "interface" (num 100) (num 130)
                    JNull JNull JUndefined JUndefined)
  /\ nodes (release_node 2 sample) !! 0 = nodes sample !! 0
  /\ nodes (release_node 2 sample) !! 1 = nodes sample !! 1.
Proof.
  destruct (release_interface_only_own_pin sample 2
              (pinned_node "interface" "s1-eth2" 100 130)
              eq_refl eq_refl) as (Hown & Hothers & _).
  split; [exact Hown|].
  split; apply Hothers; discriminate.
Defined.

(** ** Dragging an interface *)

Lemma dragged_interface_without_owner st d nd ev :
  nodes st !! d = Some nd ->
  Node.type nd = "interface" ->
  get_interface_owner st nd = None ->
  dragged d ev st = TypeError.
Proof.
  intros Hd Htype Hown. unfold dragged. rewrite Hd, Htype.
  change (String.eqb "interface" "switch") with false.
  change (String.eqb "interface" "interface") with true. cbv iota.
  by rewrite Hown.
Qed.

(** C2 (the code at the failing input): dragging the interface of the
    malformed graph, which no ownership edge targets, does not pin it at the
    pointer; the handler throws on [owner.fx]. *)
Theorem dragged_ownerless_interface_throws :
  get_interface_owner ownerless (pinned_node "interface" "sw1-eth1" 130 100)
    = None
  /\ dragged 1 (Event.mk 140 90) ownerless = TypeError.
Proof.
  split; [reflexivity|].
  apply (dragged_interface_without_owner ownerless 1
           (pinned_node "interface" "sw1-eth1" 130 100)); reflexivity.
Qed.

Lemma distance_interface : distance "interface" = num (20 + 10).
Proof. reflexivity. Qed.

Lemma radius_positioning_num (cx cy x y : R) :
  radius_positioning (num cx) (num cy) (num x) (num y)
  = (num (cx + Rtrigo_def.cos (atan2R (y - cy) (x - cx)) * (20 + 10)),
     num (cy + Rtrigo_def.sin (atan2R (y - cy) (x - cx)) * (20 + 10))).
Proof. reflexivity. Qed.

(** Any point at angle [a] and radius [r >= 0] from a centre is at distance
    [r] from it. *)
Lemma ring_distance (cx cy a r : R) :
  (0 <= r)%R ->
  euclidean_distance
    ((cx + Rtrigo_def.cos a * r)%R, (cy + Rtrigo_def.sin a * r)%R) (cx, cy) = r.
Proof.
  intros Hr. unfold euclidean_distance. simpl fst. simpl snd.
  replace ((cx + Rtrigo_def.cos a * r - cx) * (cx + Rtrigo_def.cos a * r - cx)
           + (cy + Rtrigo_def.sin a * r - cy) * (cy + Rtrigo_def.sin a * r - cy))%R
    with (r * r)%R.
  - by apply sqrt_square.
  - pose proof (sin2_cos2 a) as H. unfold Rsqr in H.
    transitivity
      ((Rtrigo_def.sin a * Rtrigo_def.sin a
        + Rtrigo_def.cos a * Rtrigo_def.cos a) * (r * r))%R.
    + rewrite H. ring.
    + ring.
Qed.

(** *** The angle of [Math.atan2] *)

Section Ring.
Local Open Scope R_scope.

Lemma hypotenuse_pos x y : x <> 0 \/ y <> 0 -> 0 < sqrt (x * x + y * y).
Proof. intros H. apply sqrt_lt_R0. destruct H; nra. Qed.

Lemma sqrt_slope x y :
  x <> 0 -> sqrt (1 + (y / x)²) = sqrt (x * x + y * y) / Rabs x.
Proof.
  intros Hx.
  assert (Habs : 0 < Rabs x) by (apply Rabs_pos_lt; exact Hx).
  assert (Hr : 0 < sqrt (x * x + y * y)) by (apply hypotenuse_pos; by left).
  apply sqrt_lem_1.
  - unfold Rsqr. assert (0 <= (y / x) * (y / x)) by nra. lra.
  - apply Rlt_le. apply Rdiv_lt_0_compat; assumption.
  - unfold Rsqr.
    replace (sqrt (x * x + y * y) / Rabs x * (sqrt (x * x + y * y) / Rabs x))
      with ((sqrt (x * x + y * y) * sqrt (x * x + y * y)) / (Rabs x * Rabs x))
      by (field; lra).
    rewrite sqrt_sqrt by nra.
    replace (Rabs x * Rabs x) with (x * x).
    + field. exact Hx.
    + unfold Rabs. destruct (Rcase_abs x); ring.
Qed.

(** [atan2R y x] is the angle of the vector [(x, y)]. *)
Lemma cos_sin_atan2R y x :
  x <> 0 \/ y <> 0 ->
  Rtrigo_def.cos (atan2R y x) = x / sqrt (x * x + y * y)
  /\ Rtrigo_def.sin (atan2R y x) = y / sqrt (x * x + y * y).
Proof.
  intros Hxy. pose proof (hypotenuse_pos x y Hxy) as Hr. unfold atan2R.
  destruct (Rlt_dec 0 x) as [Hpos|Hnpos].
  - rewrite cos_atan, sin_atan, sqrt_slope by lra.
    rewrite Rabs_right by lra. split; field; lra.
  - destruct (Rlt_dec x 0) as [Hneg|Hnneg].
    + assert (Hc : Rtrigo_def.cos (atan (y / x)) = - x / sqrt (x * x + y * y)).
      { rewrite cos_atan, sqrt_slope by lra.
        rewrite Rabs_left by lra. field; lra. }
      assert (Hs : Rtrigo_def.sin (atan (y / x)) = - y / sqrt (x * x + y * y)).
      { rewrite sin_atan, sqrt_slope by lra.
        rewrite Rabs_left by lra. field; lra. }
      destruct (Rlt_dec y 0).
      * rewrite cos_minus, sin_minus, cos_PI, sin_PI, Hc, Hs.
        split; field; lra.
      * rewrite neg_cos, neg_sin, Hc, Hs. split; field; lra.
    + assert (Hx : x = 0) by lra. subst x.
      assert (Hy : y <> 0) by (destruct Hxy; [lra|assumption]).
      replace (0 * 0 + y * y) with (y * y) in * by ring.
      destruct (Rlt_dec 0 y) as [Hy1|Hy1].
      * rewrite cos_PI2, sin_PI2, sqrt_square by lra. split; field; lra.
      * destruct (Rlt_dec y 0) as [Hy2|Hy2]; [|lra].
        replace (- PI / 2) with (- (PI / 2)) by field.
        rewrite cos_neg, sin_neg, cos_PI2, sin_PI2.
        replace (y * y) with ((- y) * (- y)) by ring.
        rewrite sqrt_square by lra. split; field; lra.
Qed.

(** The new position lies on the ray from the centre through the pointer:
    the pointer is re-projected onto the ring at its own angle. *)
Lemma radius_positioning_towards_pointer (cx cy x y : R) :
  x - cx <> 0 \/ y - cy <> 0 ->
  radius_positioning (num cx) (num cy) (num x) (num y)
  = (num (cx + (x - cx) / euclidean_distance (x, y) (cx, cy) * (20 + 10)),
     num (cy + (y - cy) / euclidean_distance (x, y) (cx, cy) * (20 + 10))).
Proof.
  intros Hxy. rewrite radius_positioning_num.
  destruct (cos_sin_atan2R (y - cy) (x - cx) Hxy) as [Hc Hs].
  rewrite Hc, Hs. reflexivity.
Qed.

End Ring.

(** C1: when the interface [d] has a resolvable owner [o] that is a switch
    located at numbers [(cx, cy)], a drag of [d] succeeds for every pointer
    position, leaves the owner where it was, and pins [d] at a point whose
    Euclidean distance to the owner's position is [distance "interface"]. *)
Theorem dragged_interface_on_ring
    (st : state) (d o : nat) (nd owner : Node.t) (ev : Event.t) (cx cy : R) :
  nodes st !! d = Some nd ->
  Node.type nd = "interface" ->
  get_interface_owner st nd = Some o ->
  nodes st !! o = Some owner ->
  Node.type owner = "switch" ->
  current_position owner = (num cx, num cy) ->
  exists st' nd' px py,
    dragged d ev st = Ok st'
    /\ nodes st' !! o = Some owner
    /\ nodes st' !! d = Some nd'
    /\ Node.fx nd' = num px /\ Node.fy nd' = num py
    /\ num (euclidean_distance (px, py) (cx, cy)) = distance "interface".
Proof.
  intros Hd Htype Hown Ho Hsw Hpos.
  assert (Hne : d <> o).
  { intros ->. rewrite Ho in Hd. injection Hd as <-.
    rewrite Hsw in Htype. discriminate. }
  unfold dragged. rewrite Hd, Htype.
  change (String.eqb "interface" "switch") with false.
  change (String.eqb "interface" "interface") with true. cbv iota.
  rewrite Hown, Ho. unfold current_position in Hpos. rewrite Hpos.
  rewrite radius_positioning_num. cbn [fst snd].
  eexists _, _, _, _. split; [reflexivity|].
  split; [by rewrite lookup_update_node_ne|].
  split; [by rewrite lookup_update_node_eq, Hd|].
  split; [reflexivity|]. split; [reflexivity|].
  rewrite distance_interface. unfold num. do 2 f_equal.
  apply ring_distance. lra.
Qed.

Lemma dragged_interface_on_ring_witness :
  exists st' nd' px py,
    dragged 1 (Event.mk 90 250) sample = Ok st'
    /\ nodes st' !! 0 = Some (pinned_node "switch" "00:00:00:00:00:00:00:01"
                                          100 100)
    /\ nodes st' !! 1 = Some nd'
    /\ Node.fx nd' = num px /\ Node.fy nd' = num py
    /\ num (euclidean_distance (px, py) (100%R, 100%R)) = distance "interface".
Proof.
  apply (dragged_interface_on_ring sample 1 0
           (fresh_node "interface" "s1-eth1" 130 100)
           (pinned_node "switch" "00:00:00:00:00:00:00:01" 100 100));
    reflexivity.
Defined.

(** ** Dragging a switch *)

(** A gesture starts by pinning the node where it is, so every drag event
    finds the dragged node pinned. *)
Lemma dragstarted_pins st d nd :
  nodes st !! d = Some nd ->
  exists nd', nodes (dragstarted d st) !! d = Some nd'
              /\ Node.fx nd' = Node.x nd /\ Node.fy nd' = Node.y nd.
Proof.
  intros Hd. unfold dragstarted. rewrite Hd.
  destruct (String.eqb (Node.type nd) "switch").
  - rewrite !lookup_update_node_eq, Hd. eexists. split; [reflexivity|]. done.
  - rewrite lookup_update_node_eq, Hd. eexists. split; [reflexivity|]. done.
Qed.








(** ** Loops that write one item per reference *)

(** A loop whose body, as long as [P] holds, rewrites the item at its own
    index with an idempotent function: afterwards exactly the items whose
    index occurs in the list are rewritten. *)
Lemma each_pointwise {S A : Type} (proj : S -> list A) (h : nat -> A -> A)
    (P : S -> Prop) (body : nat -> S -> S) (l : list nat) (s : S) :
  (forall j s, j ∈ l -> P s ->
               proj (body j s) = alter (h j) j (proj s) /\ P (body j s)) ->
  (forall j a, h j (h j a) = h j a) ->
  P s ->
  P (each l body s)
  /\ forall k, proj (each l body s) !! k
               = if bool_decide (k ∈ l) then h k <$> proj s !! k
                 else proj s !! k.
Proof.
  intros Hbody Hidem. revert s. induction l as [|a l IH]; intros s Hs.
  - split; [exact Hs|]. intros k. rewrite bool_decide_false; [reflexivity|].
    apply not_elem_of_nil.
  - rewrite each_cons.
    destruct (Hbody a s (list_elem_of_here _ _) Hs) as [Hproj Hs1].
    destruct (IH (fun j s' Hj => Hbody j s' (list_elem_of_further _ _ _ Hj))
                 _ Hs1) as [HP Hk].
    split; [exact HP|].
    intros k. rewrite Hk, Hproj.
    destruct (decide (k = a)) as [->|Hka].
    + rewrite (bool_decide_true (a ∈ a :: l)) by by left.
      rewrite list_lookup_alter_eq.
      destruct (bool_decide (a ∈ l)); [|reflexivity].
      destruct (proj s !! a); simpl; [|reflexivity]. by rewrite Hidem.
    + rewrite list_lookup_alter_ne by done.
      assert (Hmem : bool_decide (k ∈ a :: l) = bool_decide (k ∈ l)).
      { apply bool_decide_ext. rewrite elem_of_cons.
        split; [intros [Hk'|Hk']; [contradiction|exact Hk'] | by right]. }
      by rewrite Hmem.
Qed.

Lemma state_eq (s1 s2 : state) :
  nodes s1 = nodes s2 -> links s1 = links s2 -> circles s1 = circles s2 ->
  hide_unused_interfaces s1 = hide_unused_interfaces s2 ->
  hide_disconnected_hosts s1 = hide_disconnected_hosts s2 ->
  s1 = s2.
Proof. destruct s1, s2. simpl. by intros -> -> -> -> ->. Qed.


(** ** Loops that may throw *)

Lemma each_r_cons {A S : Type} a l (body : A -> S -> result S) s :
  each_r (a :: l) body s = bind (body a s) (each_r l body).
Proof. reflexivity. Qed.

(** A loop whose body never throws as long as [P] holds is the loop of the
    bodies' results. *)
Lemma each_r_ok {A S : Type} (P : S -> Prop) (body : A -> S -> result S)
    (pure : A -> S -> S) l s :
  (forall a s, a ∈ l -> P s -> body a s = Ok (pure a s) /\ P (pure a s)) ->
  P s ->
  each_r l body s = Ok (each l pure s).
Proof.
  revert s. induction l as [|a l IH]; intros s Hbody Hs; [reflexivity|].
  destruct (Hbody a s (list_elem_of_here _ _) Hs) as [Ha Hs1].
  rewrite each_r_cons, Ha, each_cons. simpl.
  apply IH; [|exact Hs1].
  intros b s' Hb. apply Hbody. by right.
Qed.

(** What every step keeps, the loop keeps, if it ends. *)
Lemma each_r_invariant {A S : Type} (P : S -> Prop) l
    (body : A -> S -> result S) s s' :
  (forall a s s', a ∈ l -> P s -> body a s = Ok s' -> P s') ->
  P s -> each_r l body s = Ok s' -> P s'.
Proof.
  revert s. induction l as [|a l IH]; intros s Hbody Hs Hrun.
  - injection Hrun as <-. exact Hs.
  - rewrite each_r_cons in Hrun.
    destruct (body a s) as [s1| |] eqn:Ha; try discriminate Hrun.
    simpl in Hrun. apply (IH s1); [|eauto using list_elem_of_here|exact Hrun].
    intros b t t' Hb. apply Hbody. by right.
Qed.

(** The loop that may throw, when it ends: a body that, as long as [P]
    holds, rewrites the item at its own index with an idempotent function. *)
Lemma each_r_pointwise {S A : Type} (proj : S -> list A) (h : nat -> A -> A)
    (P : S -> Prop) (body : nat -> S -> result S) (l : list nat) (s s' : S) :
  (forall j s s', j ∈ l -> P s -> body j s = Ok s' ->
                  proj s' = alter (h j) j (proj s) /\ P s') ->
  (forall j a, h j (h j a) = h j a) ->
  P s ->
  each_r l body s = Ok s' ->
  P s'
  /\ forall k, proj s' !! k
               = if bool_decide (k ∈ l) then h k <$> proj s !! k
                 else proj s !! k.
Proof.
  intros Hbody Hidem. revert s. induction l as [|a l IH]; intros s Hs Hrun.
  - injection Hrun as <-. split; [exact Hs|]. intros k.
    rewrite bool_decide_false; [reflexivity|]. apply not_elem_of_nil.
  - rewrite each_r_cons in Hrun.
    destruct (body a s) as [s1| |] eqn:Ha; try discriminate Hrun.
    simpl in Hrun.
    destruct (Hbody a s s1 (list_elem_of_here _ _) Hs Ha) as [Hproj Hs1].
    destruct (IH (fun j t t' Hj => Hbody j t t' (list_elem_of_further _ _ _ Hj))
                 _ Hs1 Hrun) as [HP Hk].
    split; [exact HP|].
    intros k. rewrite Hk, Hproj.
    destruct (decide (k = a)) as [->|Hka].
    + rewrite (bool_decide_true (a ∈ a :: l)) by by left.
      rewrite list_lookup_alter_eq.
      destruct (bool_decide (a ∈ l)); [|reflexivity].
      destruct (proj s !! a); simpl; [|reflexivity]. by rewrite Hidem.
    + rewrite list_lookup_alter_ne by done.
      assert (Hmem : bool_decide (k ∈ a :: l) = bool_decide (k ∈ l)).
      { apply bool_decide_ext. rewrite elem_of_cons.
        split; [intros [Hk'|Hk']; [contradiction|exact Hk'] | by right]. }
      by rewrite Hmem.
Qed.

(** ** Circles and their identifiers *)

Lemma circle_of_node st j n :
  circles_match st ->
  nodes st !! j = Some n ->
  exists c, circles st !! j = Some c
            /\ Circle.id c = node_id (Node.type n) (Node.name n).
Proof.
  intros Hm Hj.
  assert (H : circle_ids st !! j = Some (node_id (Node.type n) (Node.name n))).
  { rewrite Hm. unfold node_ids. by rewrite list_lookup_fmap, Hj. }
  unfold circle_ids in H. rewrite list_lookup_fmap in H.
  destruct (circles st !! j) as [c|]; [|discriminate H].
  injection H as H. eauto.
Qed.

Lemma circle_ids_alter st i set :
  (forall c, Circle.id (set c) = Circle.id c) ->
  circle_ids (set_circles (alter set i (circles st)) st) = circle_ids st.
Proof.
  intros Hset. unfold circle_ids. simpl. by apply fmap_alter_preserved.
Qed.

Lemma node_id_inj t1 n1 t2 n2 :
  known_type t1 = true -> known_type t2 = true ->
  node_id t1 n1 = node_id t2 n2 ->
  t1 = t2 /\ fix_name n1 = fix_name n2.
Proof.
  unfold known_type. intros H1 H2 Hid.
  repeat (apply orb_true_iff in H1 as [H1|H1]);
    repeat (apply orb_true_iff in H2 as [H2|H2]);
    apply String.eqb_eq in H1, H2; subst t1 t2;
    cbn in Hid; try discriminate Hid;
    (split; [reflexivity | by injection Hid]).
Qed.

(** Under the naming discipline no two circles share an id. *)
Lemma well_named_distinct_ids st :
  circles_match st -> well_named st -> NoDup (circle_ids st).
Proof.
  intros Hm [Hnames Hwf]. rewrite Hm. apply NoDup_alt.
  intros i j id Hi Hj. unfold node_ids in Hi, Hj.
  rewrite list_lookup_fmap in Hi, Hj.
  destruct (nodes st !! i) as [n1|] eqn:H1; [|discriminate Hi].
  destruct (nodes st !! j) as [n2|] eqn:H2; [|discriminate Hj].
  injection Hi as Hi. injection Hj as Hj.
  destruct (Hwf n1 (list_elem_of_lookup_2 _ _ _ H1)) as [Ht1 Hr1].
  destruct (Hwf n2 (list_elem_of_lookup_2 _ _ _ H2)) as [Ht2 Hr2].
  destruct (node_id_inj _ _ _ _ Ht1 Ht2 (eq_trans Hi (eq_sym Hj))) as [_ Hfix].
  apply (fix_name_inj _ _ Hr1 Hr2) in Hfix.
  apply (NoDup_lookup _ i j (Node.name n1) Hnames).
  - by rewrite list_lookup_fmap, H1.
  - rewrite list_lookup_fmap, H2. simpl. by rewrite Hfix.
Qed.

Lemma first_circle_cases id cs :
  first_circle id cs = NoElement \/ exists i, first_circle id cs = CircleAt i.
Proof.
  unfold first_circle. destruct (list_find _ cs) as [[k c]|]; eauto.
Qed.

(** With pairwise distinct ids, the first circle carrying the id of a circle
    is that very circle. *)
Lemma first_circle_own cs i c :
  NoDup (Circle.id <$> cs) ->
  cs !! i = Some c ->
  first_circle (Circle.id c) cs = CircleAt i.
Proof.
  intros Hnd Hi. unfold first_circle.
  assert (Hfind : list_find (fun c' => Circle.id c' = Circle.id c) cs
                  = Some (i, c)).
  { apply list_find_Some. split; [exact Hi|]. split; [reflexivity|].
    intros j y Hj Hlt Hid.
    assert (i = j); [|lia].
    apply (NoDup_lookup _ i j (Circle.id c) Hnd).
    - by rewrite list_lookup_fmap, Hi.
    - rewrite list_lookup_fmap, Hj. simpl. by rewrite Hid. }
  by rewrite Hfind.
Qed.

Lemma plain_ids_lookup st j n :
  plain_ids st = true -> nodes st !! j = Some n ->
  plain_id (node_id (Node.type n) (Node.name n)) = true.
Proof.
  unfold plain_ids. intros Hp Hj.
  rewrite forallb_forall in Hp.
  apply (Hp n). apply list_elem_of_In. by apply list_elem_of_lookup_2 in Hj.
Qed.

(** The reference engine does what is asked of an engine. *)
Lemma id_only_engine_ok : engine_ok id_only_engine.
Proof.
  intros id cs Hid. unfold id_only_engine.
  change ("#" ++ id) with (String "#" id). cbv beta iota. by rewrite Hid.
Qed.

(** *** Writing and reading a class, whatever the engine *)

Section AnyEngine.
Variable query : selector_engine.

(** A write changes nothing or rewrites one circle. *)
Lemma classed_set_inv id set st st' :
  classed_set query id set st = Ok st' ->
  st' = st \/ exists i, st' = set_circles (alter set i (circles st)) st.
Proof.
  unfold classed_set, d3_select.
  destruct (query ("#" ++ id) (circles st)) as [[|i|e]| |]; simpl;
    intros H; try discriminate H; injection H as <-; eauto.
Qed.

Lemma classed_set_frame id set st st' :
  classed_set query id set st = Ok st' ->
  nodes st' = nodes st /\ links st' = links st
  /\ hide_unused_interfaces st' = hide_unused_interfaces st
  /\ hide_disconnected_hosts st' = hide_disconnected_hosts st
  /\ length (circles st') = length (circles st).
Proof.
  intros H. apply classed_set_inv in H as [->|[i ->]]; [done|].
  repeat split; try done. simpl. by rewrite length_alter.
Qed.

Lemma classed_set_circle_ids id set st st' :
  (forall c, Circle.id (set c) = Circle.id c) ->
  classed_set query id set st = Ok st' ->
  circle_ids st' = circle_ids st.
Proof.
  intros Hset H. apply classed_set_inv in H as [->|[i ->]]; [done|].
  by apply circle_ids_alter.
Qed.

End AnyEngine.

(** *** Writing and reading a class under an engine that finds plain ids *)

Section Engine.
Variable query : selector_engine.
Hypothesis Hquery : engine_ok query.

Lemma classed_set_plain id set st :
  plain_id id = true ->
  classed_set query id set st
  = Ok (match first_circle id (circles st) with
        | CircleAt i => set_circles (alter set i (circles st)) st
        | _ => st
        end).
Proof.
  intros Hid. unfold classed_set, d3_select. rewrite (Hquery _ _ Hid).
  cbn [bind]. by destruct (first_circle id (circles st)).
Qed.

(** The write a node asks for reaches the circle of that node. *)
Lemma classed_set_own st j n set :
  circles_match st ->
  NoDup (circle_ids st) ->
  plain_ids st = true ->
  nodes st !! j = Some n ->
  classed_set query (node_id (Node.type n) (Node.name n)) set st
  = Ok (set_circles (alter set j (circles st)) st).
Proof.
  intros Hm Hnd Hp Hj.
  destruct (circle_of_node st j n Hm Hj) as (c & Hc & Hid).
  rewrite classed_set_plain by eauto using plain_ids_lookup.
  rewrite <- Hid. by rewrite (first_circle_own (circles st) j c Hnd Hc).
Qed.

Lemma classed_get_plain id get st :
  plain_id id = true ->
  classed_get query id get st
  = match first_circle id (circles st) with
    | CircleAt i =>
        match circles st !! i with Some c => Ok (get c) | None => TypeError end
    | _ => TypeError
    end.
Proof.
  intros Hid. unfold classed_get, d3_select. rewrite (Hquery _ _ Hid).
  cbn [bind].
  by destruct (first_circle_cases id (circles st)) as [H|[i H]]; rewrite H.
Qed.

End Engine.

(** ** Hiding unused interfaces *)

Lemma each_flag {A : Type} (sel : A -> bool) l acc :
  each l (fun a flag => if sel a then false else flag) acc
  = if existsb sel l then false else acc.
Proof.
  revert acc. induction l as [|a l IH]; intros acc; [reflexivity|].
  rewrite each_cons, IH. simpl. destruct (sel a); simpl; [|reflexivity].
  by destruct (existsb sel l).
Qed.

Lemma existsb_filter {A : Type} (sel q : A -> bool) l :
  existsb sel (filter (fun a => q a = true) l)
  = existsb (fun a => sel a && q a) l.
Proof.
  induction l as [|a l IH]; [reflexivity|].
  rewrite filter_cons. simpl. destruct (q a) eqn:Hq.
  - rewrite decide_True by reflexivity. simpl. rewrite IH.
    by rewrite andb_true_r.
  - rewrite decide_False by discriminate. rewrite IH.
    by rewrite andb_false_r.
Qed.

Lemma existsb_pointwise {A : Type} (f g : A -> bool) l :
  (forall a, f a = g a) -> existsb f l = existsb g l.
Proof.
  intros Hfg. induction l as [|a l IH]; [reflexivity|].
  simpl. by rewrite Hfg, IH.
Qed.

Lemma get_node_links_filter st i :
  get_node_links st i
  = filter (fun l => bool_decide (Link.target l = i)
                     || bool_decide (Link.source l = i) = true) (links st).
Proof.
  unfold get_node_links.
  rewrite <- (list_fmap_id (filter _ (links st))).
  exact (each_push_filter
           (fun l => bool_decide (Link.target l = i)
                     || bool_decide (Link.source l = i))
           (fun l => l) (links st) []).
Qed.

(** The flag computed by the inner loop is the absence of a "link" edge. *)
Lemma unused_flag st i :
  each (get_node_links st i)
       (fun link unused =>
          if String.eqb (Link.type link) "link" then false else unused)
       true
  = negb (has_link_edge st i).
Proof.
  rewrite (each_flag (fun link => String.eqb (Link.type link) "link")).
  rewrite get_node_links_filter, existsb_filter. unfold has_link_edge.
  replace (existsb _ (links st))
    with (existsb (fun l => String.eqb (Link.type l) "link"
                            && (Nat.eqb (Link.source l) i
                                || Nat.eqb (Link.target l) i)) (links st)).
  - by destruct (existsb _ _).
  - apply existsb_pointwise. intros l. f_equal.
    destruct (decide (Link.source l = i)) as [Hs|Hs],
             (decide (Link.target l = i)) as [Ht|Ht].
    + rewrite !bool_decide_true by done. by rewrite (proj2 (Nat.eqb_eq _ _) Hs).
    + rewrite (bool_decide_true _ Hs), (bool_decide_false _ Ht).
      by rewrite (proj2 (Nat.eqb_eq _ _) Hs).
    + rewrite (bool_decide_false _ Hs), (bool_decide_true _ Ht).
      by rewrite (proj2 (Nat.eqb_eq _ _) Ht), (proj2 (Nat.eqb_neq _ _) Hs).
    + rewrite (bool_decide_false _ Hs), (bool_decide_false _ Ht).
      by rewrite (proj2 (Nat.eqb_neq _ _) Hs), (proj2 (Nat.eqb_neq _ _) Ht).
Qed.

Lemma elem_of_get_nodes_by_type st type i :
  i ∈ get_nodes_by_type st type <->
  exists n, nodes st !! i = Some n /\ Node.type n = type.
Proof.
  unfold get_nodes_by_type.
  rewrite (each_push_filter (fun item => String.eqb (Node.type (snd item)) type)
             fst (imap (fun index node => (index, node)) (nodes st)) []).
  simpl. rewrite list_elem_of_fmap. split.
  - intros ([k n] & -> & Hin). apply list_elem_of_filter in Hin as [Hty Hin].
    apply elem_of_lookup_imap in Hin as (k' & n' & Heq & Hk).
    injection Heq as -> ->. apply String.eqb_eq in Hty. eauto.
  - intros (n & Hi & Hty). exists (i, n). split; [reflexivity|].
    apply list_elem_of_filter. split.
    + simpl. by apply String.eqb_eq.
    + apply elem_of_lookup_imap. eauto.
Qed.

Lemma unused_interface_member st k :
  bool_decide (k ∈ get_interfaces st) && negb (has_link_edge st k)
  = unused_interface st k.
Proof.
  unfold unused_interface, get_interfaces.
  destruct (nodes st !! k) as [n|] eqn:Hk.
  - destruct (String.eqb (Node.type n) "interface") eqn:Hty.
    + rewrite bool_decide_true; [reflexivity|].
      apply elem_of_get_nodes_by_type. exists n.
      split; [exact Hk | by apply String.eqb_eq].
    + rewrite bool_decide_false; [reflexivity|].
      intros Hin. apply elem_of_get_nodes_by_type in Hin as (n' & Hk' & Hty').
      rewrite Hk in Hk'. injection Hk' as <-.
      apply String.eqb_eq in Hty'. congruence.
  - rewrite bool_decide_false; [reflexivity|].
    intros Hin. apply elem_of_get_nodes_by_type in Hin as (n' & Hk' & _).
    congruence.
Qed.

Lemma length_filter_zero {A : Type} (q : A -> bool) l :
  Nat.eqb (length (filter (fun a => q a = true) l)) 0 = negb (existsb q l).
Proof.
  induction l as [|a l IH]; [reflexivity|].
  rewrite filter_cons. simpl. destruct (q a).
  - by rewrite decide_True.
  - by rewrite decide_False.
Qed.

(** The test of [hide_if_disconnected] is the absence of any edge. *)
Lemma disconnected_flag st i :
  Nat.eqb (length (get_node_links st i)) 0
  = negb (existsb (fun l => Nat.eqb (Link.source l) i
                            || Nat.eqb (Link.target l) i) (links st)).
Proof.
  rewrite get_node_links_filter.
  rewrite (length_filter_zero
             (fun l => bool_decide (Link.target l = i)
                       || bool_decide (Link.source l = i))).
  f_equal. apply existsb_pointwise. intros l.
  destruct (decide (Link.source l = i)) as [Hs|Hs],
           (decide (Link.target l = i)) as [Ht|Ht].
  - rewrite !bool_decide_true by done. by rewrite (proj2 (Nat.eqb_eq _ _) Hs).
  - rewrite (bool_decide_true _ Hs), (bool_decide_false _ Ht).
    by rewrite (proj2 (Nat.eqb_eq _ _) Hs).
  - rewrite (bool_decide_false _ Hs), (bool_decide_true _ Ht).
    by rewrite (proj2 (Nat.eqb_eq _ _) Ht), (proj2 (Nat.eqb_neq _ _) Hs).
  - rewrite (bool_decide_false _ Hs), (bool_decide_false _ Ht).
    by rewrite (proj2 (Nat.eqb_neq _ _) Hs), (proj2 (Nat.eqb_neq _ _) Ht).
Qed.

Lemma circles_match_same st s :
  circles_match st -> nodes s = nodes st -> circle_ids s = circle_ids st ->
  circles_match s.
Proof.
  unfold circles_match, node_ids. intros Hm Hn Hc. by rewrite Hc, Hn.
Qed.

(** One toggle of the hosts, in closed form. *)
Lemma unused_not_disconnected st k :
  unused_interface st k = true -> disconnected_host st k = false.
Proof.
  unfold unused_interface, disconnected_host.
  destruct (nodes st !! k) as [n|]; [|done].
  intros H. apply andb_true_iff in H as [Hty _].
  apply String.eqb_eq in Hty. by rewrite Hty.
Qed.

Lemma same_chart_refl st : same_chart st st.
Proof. by repeat split. Qed.

Lemma same_chart_alter st0 s i set :
  (forall c, Circle.id (set c) = Circle.id c) ->
  same_chart st0 s ->
  same_chart st0 (set_circles (alter set i (circles s)) s).
Proof.
  intros Hset (Hn & Hl & Hids & Hu & Hh). repeat split; try done.
  by rewrite circle_ids_alter.
Qed.

Lemma same_chart_selectable st0 s :
  circles_match st0 -> NoDup (circle_ids st0) -> plain_ids st0 = true ->
  same_chart st0 s ->
  circles_match s /\ NoDup (circle_ids s) /\ plain_ids s = true.
Proof.
  intros Hm Hnd Hp (Hn & _ & Hids & _). split; [|split].
  - by apply (circles_match_same st0).
  - by rewrite Hids.
  - unfold plain_ids. by rewrite Hn.
Qed.

Lemma classed_where_ext sel1 sel2 set st :
  (forall k, k < length (circles st) -> sel1 k = sel2 k) ->
  classed_where sel1 set st = classed_where sel2 set st.
Proof.
  intros Hsel. unfold classed_where. f_equal. apply imap_ext.
  intros k c Hk. apply lookup_lt_Some in Hk. by rewrite Hsel.
Qed.

Lemma lookup_classed_where sel set st k :
  circles (classed_where sel set st) !! k
  = (fun c => if sel k then set c else c) <$> circles st !! k.
Proof. unfold classed_where. simpl. by rewrite list_lookup_imap. Qed.

Lemma same_chart_classed_where sel set st :
  (forall c, Circle.id (set c) = Circle.id c) ->
  same_chart st (classed_where sel set st).
Proof.
  intros Hset. repeat split; try done.
  unfold circle_ids, classed_where. simpl. apply list_eq. intros k.
  rewrite !list_lookup_fmap, list_lookup_imap.
  destruct (circles st !! k) as [c|]; [|reflexivity]. simpl.
  destruct (sel k); [by rewrite Hset | reflexivity].
Qed.

(** A loop over references whose body writes a class on the circle of its
    own reference, or does nothing: it never throws, and it has written the
    class on exactly the picked circles. *)
Lemma classed_loop (sel : nat -> bool) (set : Circle.t -> Circle.t)
    (body : nat -> state -> result state) (l : list nat) (st0 : state) :
  (forall c, Circle.id (set c) = Circle.id c) ->
  (forall c, set (set c) = set c) ->
  (forall j s, j ∈ l -> same_chart st0 s ->
     body j s = Ok (if sel j then set_circles (alter set j (circles s)) s
                    else s)) ->
  each_r l body st0
  = Ok (classed_where (fun k => bool_decide (k ∈ l) && sel k) set st0).
Proof.
  intros Hid Hidem Hbody.
  set (pure := fun j s => if sel j then set_circles (alter set j (circles s)) s
                          else s).
  assert (Hpure : forall j s, same_chart st0 s -> same_chart st0 (pure j s)).
  { intros j s Hs. unfold pure. destruct (sel j); [|exact Hs].
    by apply same_chart_alter. }
  rewrite (each_r_ok (same_chart st0) body pure l st0);
    [|by intros j s Hj Hs; split; [apply Hbody | apply Hpure]
     |apply same_chart_refl].
  f_equal.
  destruct (each_pointwise circles (fun j c => if sel j then set c else c)
              (same_chart st0) pure l st0) as [(Hn & Hl & _ & Hu & Hh) Hk].
  - intros j s _ Hs. split; [|by apply Hpure].
    unfold pure. destruct (sel j); [reflexivity|].
    symmetry. by apply alter_same.
  - intros j c. by destruct (sel j); rewrite ?Hidem.
  - apply same_chart_refl.
  - apply state_eq; try done.
    apply list_eq. intros k. rewrite Hk, lookup_classed_where.
    destruct (bool_decide (k ∈ l)); simpl; [reflexivity|].
    by destruct (circles st0 !! k).
Qed.

Section Toggles.
Variable query : selector_engine.
Hypothesis Hquery : engine_ok query.

(** One toggle of the interfaces, in closed form. *)
Lemma toggle_unused_interfaces_closed hide st :
  circles_match st -> NoDup (circle_ids st) -> plain_ids st = true ->
  toggle_unused_interfaces query hide st
  = Ok (classed_where (unused_interface st) (Circle.set_invisible hide) st).
Proof.
  intros Hm Hnd Hp. unfold toggle_unused_interfaces.
  rewrite (classed_loop (fun j => negb (has_link_edge st j))
             (Circle.set_invisible hide)); try done.
  - f_equal. apply classed_where_ext. intros k _.
    apply unused_interface_member.
  - intros j s Hj Hs.
    apply elem_of_get_nodes_by_type in Hj as (n & Hj & Hty).
    destruct (same_chart_selectable st s Hm Hnd Hp Hs) as (Hms & Hnds & Hps).
    destruct Hs as (Hn & Hl & _).
    unfold hide_if_unused. rewrite unused_flag.
    assert (Hh : has_link_edge s j = has_link_edge st j)
      by (unfold has_link_edge; by rewrite Hl).
    rewrite Hh. destruct (has_link_edge st j); [reflexivity|]. simpl.
    rewrite Hn, Hj.
    change ("node-interface-" ++ fix_name (Node.name n))
      with (node_id "interface" (Node.name n)).
    rewrite <- Hty. apply (classed_set_own query Hquery); try done.
    by rewrite Hn.
Qed.

(** One toggle of the hosts, in closed form. *)
Lemma toggle_disconnected_hosts_closed hide st :
  circles_match st -> NoDup (circle_ids st) -> plain_ids st = true ->
  toggle_disconnected_hosts query hide st
  = Ok (classed_where (disconnected_host st) (Circle.set_invisible hide) st).
Proof.
  intros Hm Hnd Hp. unfold toggle_disconnected_hosts.
  rewrite (classed_loop
             (fun j => Nat.eqb (length (get_node_links st j)) 0)
             (Circle.set_invisible hide)); try done.
  - f_equal. apply classed_where_ext. intros k _.
    unfold disconnected_host, get_hosts. rewrite disconnected_flag.
    destruct (nodes st !! k) as [n|] eqn:Hnk.
    + destruct (String.eqb (Node.type n) "host") eqn:Hty.
      * rewrite bool_decide_true; [reflexivity|].
        apply elem_of_get_nodes_by_type. exists n.
        split; [exact Hnk | by apply String.eqb_eq].
      * rewrite bool_decide_false; [reflexivity|].
        intros Hin. apply elem_of_get_nodes_by_type in Hin as (n' & Hk' & Hty').
        rewrite Hnk in Hk'. injection Hk' as <-.
        apply String.eqb_eq in Hty'. congruence.
    + rewrite bool_decide_false; [reflexivity|].
      intros Hin. apply elem_of_get_nodes_by_type in Hin as (n' & Hk' & _).
      congruence.
  - intros j s Hj Hs.
    apply elem_of_get_nodes_by_type in Hj as (n & Hj & Hty).
    destruct (same_chart_selectable st s Hm Hnd Hp Hs) as (Hms & Hnds & Hps).
    destruct Hs as (Hn & Hl & _).
    unfold hide_if_disconnected.
    assert (Hcond : Nat.eqb (length (get_node_links s j)) 0
                    = Nat.eqb (length (get_node_links st j)) 0).
    { by rewrite !disconnected_flag, Hl. }
    rewrite Hcond. clear Hcond.
    destruct (Nat.eqb (length (get_node_links st j)) 0); [|reflexivity].
    rewrite Hn, Hj.
    change ("node-host-" ++ fix_name (Node.name n))
      with (node_id "host" (Node.name n)).
    rewrite <- Hty. apply (classed_set_own query Hquery); try done.
    by rewrite Hn.
Qed.

End Toggles.

Lemma selectable_classed_where sel set st :
  (forall c, Circle.id (set c) = Circle.id c) ->
  circles_match st -> NoDup (circle_ids st) -> plain_ids st = true ->
  circles_match (classed_where sel set st)
  /\ NoDup (circle_ids (classed_where sel set st))
  /\ plain_ids (classed_where sel set st) = true.
Proof.
  intros Hset Hm Hnd Hp.
  by apply (same_chart_selectable st); [..|apply same_chart_classed_where].
Qed.

Lemma sample_ids_distinct :
  NoDup ["node-switch-00__00__00__00__00__00__00__01";
         "node-interface-s1-eth1"; "node-interface-s1-eth2"; "node-host-h1"].
Proof. solve_NoDup. Qed.




(** ** What the toggles leave alone *)

Section ToggleFrames.
Variable query : selector_engine.

Lemma classed_set_invisible_kept id hide st0 s s' :
  same_chart st0 s /\ downlights s = downlights st0 ->
  classed_set query id (Circle.set_invisible hide) s = Ok s' ->
  same_chart st0 s' /\ downlights s' = downlights st0.
Proof.
  intros [Hs Hd] H. apply classed_set_inv in H as [->|[i ->]]; [done|].
  split; [by apply same_chart_alter|].
  rewrite <- Hd. unfold downlights. simpl. by apply fmap_alter_preserved.
Qed.

Lemma toggle_unused_interfaces_kept hide st st' :
  toggle_unused_interfaces query hide st = Ok st' ->
  same_chart st st' /\ downlights st' = downlights st.
Proof.
  unfold toggle_unused_interfaces.
  apply (each_r_invariant
           (fun s => same_chart st s /\ downlights s = downlights st));
    [|split; [apply same_chart_refl | reflexivity]].
  intros j s s' _ Hs. unfold hide_if_unused.
  destruct (each (get_node_links s j) _ true);
    [|by intros [= <-]].
  destruct (nodes s !! j); [|by intros [= <-]].
  by apply classed_set_invisible_kept.
Qed.

Lemma toggle_disconnected_hosts_kept hide st st' :
  toggle_disconnected_hosts query hide st = Ok st' ->
  same_chart st st' /\ downlights st' = downlights st.
Proof.
  unfold toggle_disconnected_hosts.
  apply (each_r_invariant
           (fun s => same_chart st s /\ downlights s = downlights st));
    [|split; [apply same_chart_refl | reflexivity]].
  intros j s s' _ Hs. unfold hide_if_disconnected.
  destruct (Nat.eqb (length (get_node_links s j)) 0);
    [|by intros [= <-]].
  destruct (nodes s !! j); [|by intros [= <-]].
  by apply classed_set_invisible_kept.
Qed.

(** A click flips its check box and otherwise keeps what a toggle keeps. *)
Lemma click_hide_unused_interfaces_kept st st' :
  click_hide_unused_interfaces query st = Ok st' ->
  nodes st' = nodes st /\ links st' = links st
  /\ circle_ids st' = circle_ids st /\ downlights st' = downlights st
  /\ hide_unused_interfaces st' = negb (hide_unused_interfaces st)
  /\ hide_disconnected_hosts st' = hide_disconnected_hosts st.
Proof.
  unfold click_hide_unused_interfaces. intros H.
  by apply toggle_unused_interfaces_kept in H
    as ((Hn & Hl & Hi & Hu & Hh) & Hd).
Qed.

Lemma click_hide_disconnected_hosts_kept st st' :
  click_hide_disconnected_hosts query st = Ok st' ->
  nodes st' = nodes st /\ links st' = links st
  /\ circle_ids st' = circle_ids st /\ downlights st' = downlights st
  /\ hide_unused_interfaces st' = hide_unused_interfaces st
  /\ hide_disconnected_hosts st' = negb (hide_disconnected_hosts st).
Proof.
  unfold click_hide_disconnected_hosts. intros H.
  by apply toggle_disconnected_hosts_kept in H
    as ((Hn & Hl & Hi & Hu & Hh) & Hd).
Qed.

End ToggleFrames.

(** ** Capturing a layout *)

Lemma lookup_set_property_eq name r m :
  name <> "__proto__" -> set_property name r m !! name = Some r.
Proof.
  intros Hname. unfold set_property.
  rewrite (proj2 (String.eqb_neq _ _) Hname). apply lookup_insert_eq.
Qed.

Lemma lookup_set_property_ne name r m k :
  k <> name -> set_property name r m !! k = m !! k.
Proof.
  intros Hk. unfold set_property.
  destruct (String.eqb name "__proto__"); [reflexivity|].
  by apply lookup_insert_ne.
Qed.

Lemma lookup_set_property_Some name r m k v :
  set_property name r m !! k = Some v ->
  m !! k = Some v \/ (k = name /\ v = r /\ name <> "__proto__").
Proof.
  unfold set_property.
  destruct (String.eqb name "__proto__") eqn:Hname; [by left|].
  apply String.eqb_neq in Hname.
  intros H. apply lookup_insert_Some in H as [[<- <-]|[_ H]]; [by right|by left].
Qed.

Section Capture.
Variable query : selector_engine.


Lemma capture_node_ok st node acc m :
  capture_node query st node acc = Ok m ->
  exists dl,
    classed_get query (node_id (Node.type node) (Node.name node))
                Circle.downlight st = Ok dl
    /\ m = set_property (Node.name node) (snapshot node dl) acc.
Proof.
  unfold capture_node.
  destruct (classed_get query _ Circle.downlight st) as [dl| |];
    [|discriminate..].
  cbn [bind]. intros H. injection H as <-. by exists dl.
Qed.


(** The entries of what the loop built. *)
Lemma capture_loop_keys st l acc m :
  each_r l (capture_node query st) acc = Ok m ->
  (forall k, is_Some (m !! k) <->
             (k ∈ Node.name <$> l /\ k <> "__proto__") \/ is_Some (acc !! k))
  /\ forall k r, m !! k = Some r ->
       acc !! k = Some r
       \/ exists n, n ∈ l /\ Node.name n = k
                    /\ r = snapshot n (Layout.downlight r).
Proof.
  revert acc. induction l as [|a l IH]; intros acc Hrun.
  - injection Hrun as <-. split; [|by left].
    intros k. rewrite fmap_nil. split; [by right|].
    intros [[Hk _]|Hk]; [by apply elem_of_nil in Hk | exact Hk].
  - rewrite each_r_cons in Hrun.
    destruct (capture_node query st a acc) as [acc1| |] eqn:Hstep;
      try discriminate Hrun.
    cbn [bind] in Hrun.
    destruct (capture_node_ok _ _ _ _ Hstep) as (dl & _ & ->).
    destruct (IH _ Hrun) as [Hdom Hentries]. split.
    + intros k. rewrite Hdom, fmap_cons, elem_of_cons. split.
      * intros [[Hk Hp]|[v Hv]]; [left; split; [by right|exact Hp]|].
        apply lookup_set_property_Some in Hv as [Hv|(-> & _ & Hp)].
        -- right. by exists v.
        -- left. split; [by left|exact Hp].
      * intros [[[->|Hk] Hp]|[v Hv]].
        -- right. rewrite lookup_set_property_eq by exact Hp. by eexists.
        -- left. by split.
        -- right. destruct (decide (k = Node.name a)) as [->|Hne].
           ++ unfold set_property.
              destruct (String.eqb (Node.name a) "__proto__");
                [by exists v|].
              rewrite lookup_insert_eq. by eexists.
           ++ rewrite lookup_set_property_ne by exact Hne. by exists v.
    + intros k r Hk. destruct (Hentries k r Hk) as [Hacc|(n & Hn & Hnk & Hr)].
      * apply lookup_set_property_Some in Hacc as [Hacc|(-> & -> & _)].
        -- by left.
        -- right. exists a. split; [by left|]. by split.
      * right. exists n. split; [by right|]. by split.
Qed.

End Capture.

Section CapturePlain.
Variable query : selector_engine.
Hypothesis Hquery : engine_ok query.

(** Reading a class through a plain id throws exactly when no circle
    carries the id, and then it is a [TypeError]. *)
Lemma classed_get_error id get st :
  plain_id id = true ->
  (classed_get query id get st = TypeError <-> id ∉ circle_ids st)
  /\ classed_get query id get st <> SyntaxError.
Proof.
  intros Hid. rewrite (classed_get_plain query Hquery) by exact Hid.
  unfold first_circle.
  destruct (list_find (fun c => Circle.id c = id) (circles st))
    as [[k c]|] eqn:Hfind.
  - apply list_find_Some in Hfind as (Hk & Hc & _).
    rewrite Hk. split; [|discriminate]. split; [discriminate|].
    intros Hnot. exfalso. apply Hnot. unfold circle_ids.
    apply list_elem_of_fmap. exists c. split; [by symmetry|].
    by apply list_elem_of_lookup_2 in Hk.
  - apply list_find_None in Hfind. split; [|discriminate].
    split; [|reflexivity].
    intros _ Hin. unfold circle_ids in Hin.
    apply list_elem_of_fmap in Hin as (c & -> & Hc).
    rewrite Forall_forall in Hfind. by apply (Hfind c Hc).
Qed.

Lemma capture_loop_error st l acc :
  (forall n, n ∈ l -> plain_id (node_id (Node.type n) (Node.name n)) = true) ->
  (each_r l (capture_node query st) acc = TypeError <->
   exists n, n ∈ l /\ node_id (Node.type n) (Node.name n) ∉ circle_ids st)
  /\ each_r l (capture_node query st) acc <> SyntaxError.
Proof.
  revert acc. induction l as [|a l IH]; intros acc Hplain.
  - split; [|discriminate]. split; [discriminate|].
    intros (n & Hn & _). by apply elem_of_nil in Hn.
  - rewrite each_r_cons. unfold capture_node at 1. unfold capture_node at 2.
    destruct (classed_get_error (node_id (Node.type a) (Node.name a))
                Circle.downlight st) as [Herr Hsyn];
      [apply Hplain; by left|].
    destruct (classed_get query (node_id (Node.type a) (Node.name a))
                          Circle.downlight st) as [dl| |] eqn:Hget;
      [|clear Hsyn|by destruct Hsyn].
    + cbn [bind].
      destruct (IH (set_property (Node.name a)
                      (Layout.mkData (Node.name a) (Node.type a) (Node.x a)
                         (Node.y a) (Node.fx a) (Node.fy a) dl) acc))
        as [IHerr IHsyn];
        [intros n Hn; apply Hplain; by right|].
      split; [|exact IHsyn]. rewrite IHerr. split.
      * intros (n & Hn & Hnot). exists n. split; [by right|exact Hnot].
      * intros (n & Hn & Hnot). apply elem_of_cons in Hn as [->|Hn].
        -- apply Herr in Hnot. discriminate Hnot.
        -- eauto.
    + cbn [bind]. split; [|discriminate]. split; [|reflexivity].
      intros _. exists a. split; [by left|]. by apply Herr.
Qed.

(** In a chart where every node has its circle and a plain id, capturing
    the layout does not throw. *)
Lemma get_current_layout_total st :
  circles_match st -> plain_ids st = true ->
  exists layout, get_current_layout query st = Ok layout.
Proof.
  intros Hm Hp. unfold get_current_layout.
  destruct (capture_loop_error st (nodes st) ∅) as [Herr Hsyn].
  { intros n Hn. apply list_elem_of_lookup_1 in Hn as [idx Hidx].
    by apply (plain_ids_lookup st idx). }
  destruct (each_r (nodes st) (capture_node query st) ∅) as [m| |];
    [by eexists| |by destruct Hsyn].
  destruct (proj1 Herr eq_refl) as (n & Hn & Hnot).
  apply list_elem_of_lookup_1 in Hn as [idx Hidx].
  destruct (circle_of_node st idx n Hm Hidx) as (c & Hc & Hid).
  exfalso. apply Hnot. unfold circle_ids.
  apply list_elem_of_fmap. exists c. split; [by symmetry|].
  by apply list_elem_of_lookup_2 in Hc.
Qed.

End CapturePlain.

(** ** Loading a layout *)

Lemma identity_lookup s st j :
  identity <$> nodes s = identity <$> nodes st ->
  identity <$> nodes s !! j = identity <$> nodes st !! j.
Proof. intros H. by rewrite <- !list_lookup_fmap, H. Qed.

Lemma node_ids_identity s st :
  identity <$> nodes s = identity <$> nodes st -> node_ids s = node_ids st.
Proof.
  intros H. unfold node_ids. apply list_eq. intros k.
  rewrite !list_lookup_fmap. pose proof (identity_lookup s st k H) as Hk.
  destruct (nodes s !! k) as [a|], (nodes st !! k) as [b|];
    try discriminate Hk; [|done].
  injection Hk as Hn Ht. simpl. by rewrite Hn, Ht.
Qed.

Lemma plain_ids_node_ids st : plain_ids st = forallb plain_id (node_ids st).
Proof.
  unfold plain_ids, node_ids. induction (nodes st) as [|n l IH]; [done|].
  simpl. by rewrite IH.
Qed.

Lemma restore_fields_idem layout n :
  restore_fields layout (restore_fields layout n) = restore_fields layout n.
Proof.
  unfold restore_fields at 2 3.
  destruct (get_property (Layout.nodes layout) (Node.name n)) as [r|] eqn:Hr.
  - unfold restore_fields. simpl. by rewrite Hr.
  - unfold restore_fields. by rewrite Hr.
Qed.

Lemma identity_restore_fields layout n :
  identity (restore_fields layout n) = identity n.
Proof.
  unfold restore_fields.
  by destruct (get_property (Layout.nodes layout) (Node.name n)).
Qed.

Lemma restore_fields_absent layout n :
  get_property (Layout.nodes layout) (Node.name n) = None ->
  restore_fields layout n = n.
Proof. intros H. unfold restore_fields. by rewrite H. Qed.

(** The four writes to a node that the layout holds. *)
Lemma restore_fields_writes layout node r :
  get_property (Layout.nodes layout) (Node.name node) = Some r ->
  Node.set_fy (Layout.fy r)
    (Node.set_fx (Layout.fx r)
       (Node.set_y (Layout.y r) (Node.set_x (Layout.x r) node)))
  = restore_fields layout node.
Proof. intros H. unfold restore_fields. rewrite H. by destruct node. Qed.

Lemma restore_downlight_id layout st j c :
  Circle.id (restore_downlight layout st j c) = Circle.id c.
Proof.
  unfold restore_downlight. destruct (nodes st !! j) as [n|]; [|done].
  by destruct (get_property (Layout.nodes layout) (Node.name n)).
Qed.

Lemma restore_downlight_idem layout st j c :
  restore_downlight layout st j (restore_downlight layout st j c)
  = restore_downlight layout st j c.
Proof.
  unfold restore_downlight. destruct (nodes st !! j) as [n|]; [|done].
  by destruct (get_property (Layout.nodes layout) (Node.name n)).
Qed.

Section Restore.
Variable query : selector_engine.

(** One step of the loop, when it does not throw. *)
Lemma restore_node_kept layout idx s s' :
  restore_node query layout idx s = Ok s' ->
  nodes s' = alter (restore_fields layout) idx (nodes s)
  /\ links s' = links s
  /\ circle_ids s' = circle_ids s
  /\ hide_unused_interfaces s' = hide_unused_interfaces s
  /\ hide_disconnected_hosts s' = hide_disconnected_hosts s.
Proof.
  unfold restore_node. destruct (nodes s !! idx) as [node|] eqn:Hidx.
  - destruct (get_property (Layout.nodes layout) (Node.name node))
      as [r|] eqn:Hr.
    + intros H.
      pose proof (classed_set_circle_ids query _
                    (Circle.set_downlight (Layout.downlight r)) _ _
                    (fun c => eq_refl) H) as Hids.
      apply classed_set_frame in H as (Hn & Hl & Hu & Hh & _).
      rewrite Hn, Hl, Hids, Hu, Hh, nodes_update_node.
      repeat split; try done.
      apply list_alter_ext; [|done..]. intros n Hn'.
      rewrite Hidx in Hn'. injection Hn' as <-.
      by apply restore_fields_writes.
    + intros [= <-]. repeat split; try done.
      symmetry. apply alter_same. intros n Hn.
      rewrite Hidx in Hn. injection Hn as <-.
      by apply restore_fields_absent.
  - intros [= <-]. repeat split; try done.
    symmetry. apply alter_same. intros n Hn. congruence.
Qed.

(** The loop over all nodes, when it does not throw. *)
Lemma restore_loop_kept layout st s1 :
  each_r (seq 0 (length (nodes st))) (restore_node query layout) st = Ok s1 ->
  nodes s1 = restore_fields layout <$> nodes st
  /\ links s1 = links st
  /\ circle_ids s1 = circle_ids st
  /\ hide_unused_interfaces s1 = hide_unused_interfaces st
  /\ hide_disconnected_hosts s1 = hide_disconnected_hosts st.
Proof.
  intros Hrun.
  set (P := fun s : state =>
              links s = links st /\ circle_ids s = circle_ids st
              /\ hide_unused_interfaces s = hide_unused_interfaces st
              /\ hide_disconnected_hosts s = hide_disconnected_hosts st).
  destruct (each_r_pointwise nodes (fun _ => restore_fields layout) P
              (restore_node query layout) (seq 0 (length (nodes st))) st s1)
    as [(Hl & Hids & Hu & Hh) Hk]; [| |done|exact Hrun|].
  - intros j s s' _ (Hl & Hids & Hu & Hh) Hstep.
    apply restore_node_kept in Hstep as (Hn' & Hl' & Hids' & Hu' & Hh').
    split; [exact Hn'|]. unfold P. by rewrite Hl', Hids', Hu', Hh'.
  - intros _ n. apply restore_fields_idem.
  - repeat split; try done.
    apply list_eq. intros k. rewrite Hk, list_lookup_fmap.
    destruct (nodes st !! k) as [n|] eqn:Hn.
    + rewrite bool_decide_true; [reflexivity|].
      apply elem_of_seq. apply lookup_lt_Some in Hn. lia.
    + by destruct (bool_decide _).
Qed.

(** The callback of [restore_layout], when it does not throw: its loop
    ended in some state, from which the clicks kept everything but the class
    [invisible] and the check boxes, and the check boxes show the stored
    values. *)
Lemma restore_layout_inv layout st st' :
  restore_layout query layout st = Ok st' ->
  exists s1,
    each_r (seq 0 (length (nodes st))) (restore_node query layout) st = Ok s1
    /\ nodes st' = nodes s1 /\ links st' = links s1
    /\ circle_ids st' = circle_ids s1 /\ downlights st' = downlights s1
    /\ hide_unused_interfaces st'
       = Layout.hide_unused_interfaces (Layout.settings layout)
    /\ hide_disconnected_hosts st'
       = Layout.hide_disconnected_hosts (Layout.settings layout).
Proof.
  unfold restore_layout.
  destruct (each_r (seq 0 (length (nodes st))) (restore_node query layout) st)
    as [s1| |]; [|discriminate..].
  cbn [bind]. intros Hrun. exists s1. split; [reflexivity|].
  set (u := Layout.hide_unused_interfaces (Layout.settings layout)) in *.
  set (h := Layout.hide_disconnected_hosts (Layout.settings layout)) in *.
  assert (H2 : exists s2,
    (if negb (Bool.eqb u (hide_unused_interfaces s1))
     then click_hide_unused_interfaces query s1 else Ok s1) = Ok s2
    /\ nodes s2 = nodes s1 /\ links s2 = links s1
    /\ circle_ids s2 = circle_ids s1 /\ downlights s2 = downlights s1
    /\ hide_unused_interfaces s2 = u
    /\ hide_disconnected_hosts s2 = hide_disconnected_hosts s1).
  { destruct (Bool.eqb u (hide_unused_interfaces s1)) eqn:He; cbn [negb] in *.
    - exists s1. repeat split; try done. symmetry. by apply Bool.eqb_prop.
    - destruct (click_hide_unused_interfaces query s1) as [s2| |] eqn:Hc;
        [|discriminate Hrun..].
      exists s2. split; [reflexivity|].
      apply click_hide_unused_interfaces_kept in Hc
        as (Hn & Hl & Hi & Hd & Hu & Hh).
      repeat split; try done.
      rewrite Hu. by destruct u, (hide_unused_interfaces s1). }
  destruct H2 as (s2 & Hs2 & Hn2 & Hl2 & Hi2 & Hd2 & Hu2 & Hh2).
  rewrite Hs2 in Hrun. cbn [bind] in Hrun.
  destruct (Bool.eqb h (hide_disconnected_hosts s2)) eqn:He; cbn [negb] in *.
  - injection Hrun as <-. repeat split; try done.
    symmetry. by apply Bool.eqb_prop.
  - apply click_hide_disconnected_hosts_kept in Hrun
      as (Hn & Hl & Hi & Hd & Hu & Hh).
    repeat split; try congruence.
    rewrite Hh. by destruct h, (hide_disconnected_hosts s2).
Qed.


End Restore.



Section RestorePlain.
Variable query : selector_engine.
Hypothesis Hquery : engine_ok query.

(** One step of the loop in closed form, anywhere in a run that started in
    [st]. *)
Lemma restore_node_closed layout st j s :
  circles_match st -> NoDup (circle_ids st) -> plain_ids st = true ->
  identity <$> nodes s = identity <$> nodes st ->
  circle_ids s = circle_ids st ->
  restore_node query layout j s
  = Ok (mkState (alter (restore_fields layout) j (nodes s)) (links s)
                (alter (restore_downlight layout st j) j (circles s))
                (hide_unused_interfaces s) (hide_disconnected_hosts s)).
Proof.
  intros Hm Hnd Hp Hid Hids.
  assert (Hnids : node_ids s = node_ids st) by by apply node_ids_identity.
  pose proof (identity_lookup s st j Hid) as Hj.
  unfold restore_node.
  destruct (nodes s !! j) as [node|] eqn:Hsj.
  - destruct (nodes st !! j) as [n0|] eqn:Hstj; [|discriminate Hj].
    injection Hj as Hname Htype.
    destruct (get_property (Layout.nodes layout) (Node.name node))
      as [r|] eqn:Hr.
    + set (f := fun n : Node.t =>
                  Node.set_fy (Layout.fy r)
                    (Node.set_fx (Layout.fx r)
                       (Node.set_y (Layout.y r)
                          (Node.set_x (Layout.x r) n)))).
      change (node_id (Node.type node) (Node.name node))
        with (node_id (Node.type (f node)) (Node.name (f node))).
      assert (Hnids1 : node_ids (update_node j f s) = node_ids st).
      { rewrite <- Hnids. unfold node_ids. rewrite nodes_update_node.
        by apply fmap_alter_preserved. }
      rewrite (classed_set_own query Hquery (update_node j f s) j (f node)).
      * f_equal. apply state_eq; try reflexivity.
        -- simpl. apply list_alter_ext; [|done..]. intros n Hn.
           rewrite Hsj in Hn. injection Hn as <-.
           by apply restore_fields_writes.
        -- simpl. apply list_alter_ext; [|done..]. intros c _.
           unfold restore_downlight. by rewrite Hstj, <- Hname, Hr.
      * unfold circles_match. rewrite Hnids1.
        change (circle_ids s = node_ids st). by rewrite Hids.
      * change (NoDup (circle_ids s)). by rewrite Hids.
      * by rewrite plain_ids_node_ids, Hnids1, <- plain_ids_node_ids.
      * by rewrite lookup_update_node_eq, Hsj.
    + f_equal. apply state_eq; try reflexivity; simpl; symmetry.
      * apply alter_same. intros n Hn. rewrite Hsj in Hn.
        injection Hn as <-. by apply restore_fields_absent.
      * apply alter_same. intros c _.
        unfold restore_downlight. by rewrite Hstj, <- Hname, Hr.
  - destruct (nodes st !! j) as [n0|] eqn:Hstj; [discriminate Hj|].
    f_equal. apply state_eq; try reflexivity; simpl; symmetry.
    + apply alter_same. intros n Hn. congruence.
    + apply alter_same. intros c _. unfold restore_downlight. by rewrite Hstj.
Qed.

(** The whole loop in closed form. *)
Lemma restore_loop_closed layout st :
  circles_match st -> NoDup (circle_ids st) -> plain_ids st = true ->
  each_r (seq 0 (length (nodes st))) (restore_node query layout) st
  = Ok (restored layout st).
Proof.
  intros Hm Hnd Hp.
  set (pure := fun j s =>
    mkState (alter (restore_fields layout) j (nodes s)) (links s)
            (alter (restore_downlight layout st j) j (circles s))
            (hide_unused_interfaces s) (hide_disconnected_hosts s)).
  set (l := seq 0 (length (nodes st))).
  rewrite (each_r_ok
             (fun s => identity <$> nodes s = identity <$> nodes st
                       /\ circle_ids s = circle_ids st)
             (restore_node query layout) pure l st); [| |done].
  - f_equal.
    destruct (each_pointwise nodes (fun _ => restore_fields layout)
                (fun _ => True) pure l st) as [_ Hnk]; [| |done|].
    { intros j s _ _. by split. }
    { intros _ n. apply restore_fields_idem. }
    destruct (each_pointwise circles (restore_downlight layout st)
                (fun _ => True) pure l st) as [_ Hck]; [| |done|].
    { intros j s _ _. by split. }
    { intros j c. apply restore_downlight_idem. }
    assert (Hrest : links (each l pure st) = links st
                    /\ hide_unused_interfaces (each l pure st)
                       = hide_unused_interfaces st
                    /\ hide_disconnected_hosts (each l pure st)
                       = hide_disconnected_hosts st).
    { apply (each_invariant (fun s =>
        links s = links st
        /\ hide_unused_interfaces s = hide_unused_interfaces st
        /\ hide_disconnected_hosts s = hide_disconnected_hosts st));
        [|done].
      by intros j s _ (? & ? & ?). }
    destruct Hrest as (Hl & Hu & Hh).
    apply state_eq; try done; unfold restored; simpl.
    + apply list_eq. intros k. rewrite Hnk, list_lookup_fmap.
      destruct (nodes st !! k) as [n|] eqn:Hn.
      * rewrite bool_decide_true; [reflexivity|].
        apply elem_of_seq. apply lookup_lt_Some in Hn. lia.
      * by destruct (bool_decide _).
    + apply list_eq. intros k. rewrite Hck, list_lookup_imap.
      destruct (bool_decide (k ∈ l)) eqn:Hb; [reflexivity|].
      apply bool_decide_eq_false in Hb.
      destruct (circles st !! k) as [c|] eqn:Hc; [|reflexivity].
      simpl. unfold restore_downlight.
      destruct (nodes st !! k) as [n|] eqn:Hn; [|reflexivity].
      exfalso. apply Hb, elem_of_seq. apply lookup_lt_Some in Hn. lia.
  - intros j s _ [Hid Hids]. split; [by apply restore_node_closed|].
    unfold pure. simpl. split.
    + rewrite <- Hid. apply fmap_alter_preserved, identity_restore_fields.
    + rewrite <- Hids. unfold circle_ids. simpl.
      apply fmap_alter_preserved. intros c. apply restore_downlight_id.
Qed.

Lemma restored_selectable layout st :
  circles_match st -> NoDup (circle_ids st) -> plain_ids st = true ->
  circles_match (restored layout st)
  /\ NoDup (circle_ids (restored layout st))
  /\ plain_ids (restored layout st) = true.
Proof.
  intros Hm Hnd Hp.
  assert (Hids : circle_ids (restored layout st) = circle_ids st).
  { unfold circle_ids, restored. simpl. apply list_eq. intros k.
    rewrite !list_lookup_fmap, list_lookup_imap.
    destruct (circles st !! k) as [c|]; [|reflexivity]. simpl.
    by rewrite restore_downlight_id. }
  assert (Hnids : node_ids (restored layout st) = node_ids st).
  { apply node_ids_identity. unfold restored. simpl.
    rewrite <- list_fmap_compose. apply list_fmap_ext.
    intros k n _. apply identity_restore_fields. }
  split; [|split].
  - unfold circles_match. by rewrite Hids, Hnids.
  - by rewrite Hids.
  - by rewrite plain_ids_node_ids, Hnids, <- plain_ids_node_ids.
Qed.

(** In a chart where the selector engine finds each circle by its id,
    loading a layout does not throw. *)
Lemma restore_layout_total layout st :
  circles_match st -> NoDup (circle_ids st) -> plain_ids st = true ->
  exists st', restore_layout query layout st = Ok st'.
Proof.
  intros Hm Hnd Hp. unfold restore_layout.
  rewrite restore_loop_closed by done. cbn [bind].
  destruct (restored_selectable layout st Hm Hnd Hp) as (Hm1 & Hnd1 & Hp1).
  set (s1 := restored layout st) in *.
  assert (H2 : exists s2,
    (if negb (Bool.eqb (Layout.hide_unused_interfaces (Layout.settings layout))
                       (hide_unused_interfaces s1))
     then click_hide_unused_interfaces query s1 else Ok s1) = Ok s2
    /\ circles_match s2 /\ NoDup (circle_ids s2) /\ plain_ids s2 = true).
  { destruct (negb _); [|by exists s1].
    unfold click_hide_unused_interfaces.
    rewrite (toggle_unused_interfaces_closed query Hquery) by done.
    eexists. split; [reflexivity|].
    by apply selectable_classed_where. }
  destruct H2 as (s2 & -> & Hm2 & Hnd2 & Hp2). cbn [bind].
  destruct (negb _); [|by exists s2].
  unfold click_hide_disconnected_hosts.
  rewrite (toggle_disconnected_hosts_closed query Hquery) by done.
  by eexists.
Qed.

End RestorePlain.

(** ** Loading a layout: nodes the layout does not mention *)




(** ** Capturing a layout and loading it back *)







(** ** Saving a layout *)

Lemma save_layout_run_named query name st layout success :
  name <> "" ->
  get_current_layout query st = Ok layout ->
  save_layout_run query name st success
  = Ok (Did (AjaxPost (layouts_url ++ name) (JSON_stringify layout))
        :: Did (ModalHide "#saveLayout")
        :: Resolved success
        :: (Did <$> save_layout_handlers name success)).
Proof.
  intros Hname Hget. unfold save_layout_run, save_layout.
  rewrite (proj2 (String.eqb_neq _ _) Hname), Hget. reflexivity.
Qed.

(** C8 (the code at the failing input): saving the sample chart under the
    name "A", in a browser whose selector engine finds plain ids.  Whatever
    the outcome of the request, the dialog is hidden right after the POST is
    issued and before the request resolves; on a failure nothing at all
    happens after the response. *)
Theorem save_layout_hides_dialog_before_response
    (query : selector_engine) :
  engine_ok query ->
  forall success, exists layout,
    save_layout_run query "A" sample success
    = Ok (Did (AjaxPost (layouts_url ++ "A") layout)
          :: Did (ModalHide "#saveLayout")
          :: Resolved success
          :: (if success
              then [Did (Alert "Layout A saved."); Did (ModalHide "#saveLayout");
                    Did (Alert "Layout A saved."); Did (ModalHide "#saveLayout")]
              else [])).
Proof.
  intros Hq success.
  destruct (get_current_layout_total query Hq sample eq_refl eq_refl)
    as [layout Hget].
  exists (JSON_stringify layout).
  rewrite (save_layout_run_named query "A" sample layout success);
    [|discriminate|exact Hget].
  by destruct success.
Qed.

Lemma save_layout_hides_dialog_before_response_witness :
  exists layout,
    save_layout_run id_only_engine "A" sample false
    = Ok [Did (AjaxPost (layouts_url ++ "A") layout);
          Did (ModalHide "#saveLayout");
          Resolved false].
Proof.
  exact (save_layout_hides_dialog_before_response id_only_engine
           id_only_engine_ok false).
Defined.

(** ** Listing the saved layouts *)

(** C9 (the code at the failing input): when the store answers with an empty
    array, no notice is raised; the selection control is emptied and left
    with its placeholder entry only.  The notice is raised for a missing
    body. *)
Theorem load_layouts_empty_array_no_notice :
  load_layouts_success (Names [])
  = [ControlEmpty "#savedLayouts";
     ControlAppend "#savedLayouts"
       ("<option selected=" ++ dquote ++ "true" ++ dquote
        ++ " disabled=" ++ dquote ++ "disabled" ++ dquote
        ++ ">Selecione seu Layout</option>")]
  /\ (forall message, Alert message ∉ load_layouts_success (Names []))
  /\ load_layouts_success NoBody
     = [Alert "There isn't any saved layout to be loaded"].
Proof.
  split; [reflexivity|]. split; [|reflexivity].
  intros message Hin.
  change (Alert message
            ∈ [ControlEmpty "#savedLayouts";
               ControlAppend "#savedLayouts"
                 ("<option selected=" ++ dquote ++ "true" ++ dquote
                  ++ " disabled=" ++ dquote ++ "disabled" ++ dquote
                  ++ ">Selecione seu Layout</option>")]) in Hin.
  apply elem_of_cons in Hin as [Hin|Hin]; [discriminate Hin|].
  apply elem_of_cons in Hin as [Hin|Hin]; [discriminate Hin|].
  by apply elem_of_nil in Hin.
Qed.

(** * Further properties of the chart script *)

(** ** More on escaping *)

(** X1: an escaped name holds no colon, whatever the name. *)
Theorem fix_name_no_colon (n : string) : has_colon (fix_name n) = false.
Proof.
  induction n as [|c r IH]; [reflexivity|].
  simpl. destruct (Ascii.eqb c colon) eqn:Hc; simpl.
  - exact IH.
  - by rewrite Hc, IH.
Qed.

Lemma fix_unfix_name_two s :
  (has_colon s = false -> fix_name (unfix_name s) = s)
  /\ (forall c, has_colon (String c s) = false ->
                fix_name (unfix_name (String c s)) = String c s).
Proof.
  induction s as [|d r [IH0 IH1]].
  - split; [reflexivity|]. intros c Hc. simpl in *.
    apply orb_false_iff in Hc as [Hc _]. by rewrite Hc.
  - split; [intros H; by apply IH1|].
    intros c Hc. simpl has_colon in Hc.
    apply orb_false_iff in Hc as [Hc Hrest].
    assert (Hr : has_colon r = false).
    { simpl in Hrest. by apply orb_false_iff in Hrest as [_ Hr]. }
    change (unfix_name (String c (String d r)))
      with (if Ascii.eqb c underscore && Ascii.eqb d underscore
            then String colon (unfix_name r)
            else String c (unfix_name (String d r))).
    destruct (Ascii.eqb c underscore && Ascii.eqb d underscore) eqn:Hpair.
    + apply andb_true_iff in Hpair as [Hcu Hdu].
      apply Ascii.eqb_eq in Hcu, Hdu. subst c d.
      rewrite fix_name_colon, (IH0 Hr). reflexivity.
    + rewrite fix_name_other by (by apply Ascii.eqb_neq).
      by rewrite (IH1 d Hrest).
Qed.

(** X2: the other round trip.  On a string without colons, unescaping and
    escaping again gives the string back. *)
Theorem fix_unfix_name (s : string) :
  has_colon s = false -> fix_name (unfix_name s) = s.
Proof. apply fix_unfix_name_two. Qed.

Lemma fix_unfix_name_witness :
  fix_name (unfix_name "node__a___b") = "node__a___b".
Proof. apply fix_unfix_name. reflexivity. Defined.

(** ** More on the ownership look-ups *)

(** X3: when several ownership edges target the name of an interface, its
    owner is the source of the last of them in the edge list. *)
Theorem get_interface_owner_last_edge
    (st : state) (d : Node.t) (l1 l2 : list Link.t) (e : Link.t) :
  links st = (l1 ++ e :: l2)%list ->
  Link.type e = "interface" ->
  name_of st (Link.target e) = Some (Node.name d) ->
  (forall l, l ∈ l2 -> Link.type l = "interface" ->
             name_of st (Link.target l) <> Some (Node.name d)) ->
  get_interface_owner st d = Some (Link.source e).
Proof.
  intros Hlinks Hty Htg Hlater.
  rewrite get_interface_owner_last, Hlinks, filter_app.
  rewrite filter_cons_True.
  - replace (filter (fun l => owned_edge st (Node.name d) l = true) l2)
      with (@nil Link.t).
    + rewrite fmap_app. simpl. apply last_snoc.
    + symmetry. apply elem_of_nil_inv. intros l Hl.
      apply list_elem_of_filter in Hl as [Hsel Hl].
      unfold owned_edge in Hsel. apply andb_true_iff in Hsel as [Ht Hs].
      apply String.eqb_eq in Ht. apply bool_decide_eq_true in Hs.
      exact (Hlater l Hl Ht Hs).
  - unfold owned_edge. rewrite Hty, Htg. simpl. by rewrite bool_decide_true.
Qed.

Lemma get_interface_owner_last_edge_witness :
  get_interface_owner
    (mkState sample_nodes
             [Link.mk "interface" 3 1; Link.mk "interface" 0 1;
              Link.mk "link" 1 3]
             (render sample_nodes) false false)
    (fresh_node "interface" "s1-eth1" 130 100)
  = Some 0.
Proof.
  apply (get_interface_owner_last_edge _ _
           [Link.mk "interface" 3 1] [Link.mk "link" 1 3]
           (Link.mk "interface" 0 1)); try reflexivity.
  intros l Hl Hty. apply elem_of_cons in Hl as [->|Hl].
  - discriminate Hty.
  - by apply elem_of_nil in Hl.
Defined.

(** X4: the owner look-up answers null exactly when no ownership edge
    targets a node with the interface's name. *)
Theorem get_interface_owner_null_iff (st : state) (d : Node.t) :
  get_interface_owner st d = None <->
  forall l, l ∈ links st -> Link.type l = "interface" ->
            name_of st (Link.target l) <> Some (Node.name d).
Proof. apply get_interface_owner_None. Qed.

(** X5: the two look-ups agree.  With distinct node names, an interface
    whose owner is found is among the interfaces of that owner. *)
Theorem owner_lists_its_interface
    (st : state) (d o : nat) (nd owner : Node.t) :
  NoDup (Node.name <$> nodes st) ->
  nodes st !! d = Some nd ->
  get_interface_owner st nd = Some o ->
  nodes st !! o = Some owner ->
  d ∈ get_switch_interfaces st owner.
Proof.
  intros Hnames Hd Hown Ho.
  rewrite get_interface_owner_last in Hown.
  apply last_Some_elem_of, list_elem_of_fmap in Hown as (l & Hsrc & Hl).
  apply list_elem_of_filter in Hl as [Hsel Hl].
  unfold owned_edge in Hsel. apply andb_true_iff in Hsel as [Hty Htg].
  apply String.eqb_eq in Hty. apply bool_decide_eq_true in Htg.
  apply elem_of_get_switch_interfaces. exists l.
  split; [exact Hl|]. split; [exact Hty|]. split.
  - unfold name_of. by rewrite <- Hsrc, Ho.
  - unfold name_of in Htg.
    apply (NoDup_lookup _ _ _ (Node.name nd) Hnames).
    + by rewrite list_lookup_fmap.
    + by rewrite list_lookup_fmap, Hd.
Qed.

Lemma owner_lists_its_interface_witness :
  2 ∈ get_switch_interfaces sample
        (pinned_node "switch" "00:00:00:00:00:00:00:01" 100 100).
Proof.
  apply (owner_lists_its_interface sample 2 0
           (pinned_node "interface" "s1-eth2" 100 130)); try reflexivity.
  change (NoDup ["00:00:00:00:00:00:00:01"; "s1-eth1"; "s1-eth2"; "h1"]).
  solve_NoDup.
Defined.

Lemma NoDup_imap_index {A : Type} (l : list A) :
  NoDup (imap (fun index a => (index, a)) l).
Proof.
  apply NoDup_alt. intros i j [k a] Hi Hj.
  rewrite list_lookup_imap in Hi, Hj.
  destruct (l !! i); [|discriminate Hi]. destruct (l !! j); [|discriminate Hj].
  simpl in Hi, Hj. congruence.
Qed.

(** X6: [get_nodes_by_type] returns the references of exactly the nodes of
    the given type, and each of them once. *)
Theorem get_nodes_by_type_exact (st : state) (type : string) :
  NoDup (get_nodes_by_type st type)
  /\ forall i, i ∈ get_nodes_by_type st type
               <-> exists n, nodes st !! i = Some n /\ Node.type n = type.
Proof.
  split; [|intros i; apply elem_of_get_nodes_by_type].
  unfold get_nodes_by_type.
  rewrite (each_push_filter (fun item => String.eqb (Node.type (snd item)) type)
             fst (imap (fun index node => (index, node)) (nodes st)) []).
  simpl. apply NoDup_fmap_2_strong.
  - intros [i a] [j b] Hi Hj Heq. simpl in Heq. subst j.
    apply list_elem_of_filter in Hi as [_ Hi], Hj as [_ Hj].
    apply elem_of_lookup_imap in Hi as (i1 & a1 & Heq1 & Ha),
                                 Hj as (j1 & b1 & Heq2 & Hb).
    injection Heq1 as -> ->. injection Heq2 as <- ->. congruence.
  - apply NoDup_filter, NoDup_imap_index.
Qed.

(** ** More on releasing and dragging *)

Lemma unpin_idem n : unpin (unpin n) = unpin n.
Proof. reflexivity. Qed.

(** X7: a double click on a switch sets [fx] and [fy] to null on the switch
    and on every node its ownership edges target, however often a node is
    targeted; every other node, the edges and the circles stay as they
    were. *)
Theorem release_switch_cluster (st : state) (d : nat) (nd : Node.t) :
  nodes st !! d = Some nd ->
  Node.type nd = "switch" ->
  (forall j,
     nodes (release_node d st) !! j
     = if bool_decide (j = d \/ j ∈ get_switch_interfaces st nd)
       then unpin <$> nodes st !! j
       else nodes st !! j)
  /\ links (release_node d st) = links st
  /\ circles (release_node d st) = circles st.
Proof.
  intros Hd Hty. unfold release_node. rewrite Hd, Hty.
  change (String.eqb "switch" "switch") with true. cbv iota zeta.
  fold unpin. set (st1 := update_node d unpin st).
  assert (Hl : get_switch_interfaces st1 nd = get_switch_interfaces st nd).
  { apply get_switch_interfaces_ext; [reflexivity| |reflexivity].
    intros i. by apply name_of_update_node. }
  rewrite Hl.
  destruct (each_update_frame unpin (get_switch_interfaces st nd) st1)
    as (Hlinks & Hcircles & _).
  split; [|by split].
  intros j.
  destruct (each_pointwise nodes (fun _ => unpin) (fun _ => True)
              (fun i s => update_node i unpin s)
              (get_switch_interfaces st nd) st1) as [_ Hk]; try done.
  rewrite Hk. unfold st1.
  destruct (decide (j = d)) as [->|Hjd].
  - rewrite (bool_decide_true (d = d \/ _)) by by left.
    rewrite lookup_update_node_eq.
    destruct (bool_decide _); [|reflexivity].
    by destruct (nodes st !! d).
  - rewrite lookup_update_node_ne by done.
    apply (f_equal (fun b : bool => if b then unpin <$> nodes st !! j
                                    else nodes st !! j)).
    apply bool_decide_ext.
    split; [by right | intros [Hc|Hc]; [contradiction|exact Hc]].
Qed.

Lemma release_switch_cluster_witness :
  nodes (release_node 0 sample) !! 2
    = Some (Node.mk "s1-eth2" "interface" (num 100) (num 130)
                    JNull JNull JUndefined JUndefined)
  /\ nodes (release_node 0 sample) !! 3 = nodes sample !! 3.
Proof.
  destruct (release_switch_cluster sample 0
              (pinned_node "switch" "00:00:00:00:00:00:00:01" 100 100)
              eq_refl eq_refl) as (Hnodes & _).
  split.
  - rewrite Hnodes. rewrite bool_decide_true; [reflexivity|].
    right. change (2 ∈ [1; 2]). apply list_elem_of_further, list_elem_of_here.
  - rewrite Hnodes. rewrite bool_decide_false; [reflexivity|].
    intros [H|H]; [discriminate H|].
    change (3 ∈ [1; 2]) in H.
    apply elem_of_cons in H as [H|H]; [discriminate H|].
    apply elem_of_cons in H as [H|H]; [discriminate H|].
    by apply elem_of_nil in H.
Defined.

Lemma simulated_alter (g : Node.t -> Node.t) i st :
  (forall n, simulated (g n) = simulated n) ->
  simulated <$> nodes (update_node i g st) = simulated <$> nodes st.
Proof. intros Hg. rewrite nodes_update_node. by apply fmap_alter_preserved. Qed.

Lemma simulated_shift_interface dx dy n :
  simulated (shift_interface dx dy n) = simulated n.
Proof.
  unfold shift_interface. by destruct (eq_undefined (Node.fx n)).
Qed.

(** X8: whatever its branch, a drag event that does not throw writes only
    pins: the name, type, [x] and [y] of every node, the edges, the circles
    and the check boxes are as before. *)
Theorem dragged_writes_only_pins
    (st st' : state) (d : nat) (ev : Event.t) :
  dragged d ev st = Ok st' ->
  simulated <$> nodes st' = simulated <$> nodes st
  /\ links st' = links st
  /\ circles st' = circles st
  /\ hide_unused_interfaces st' = hide_unused_interfaces st
  /\ hide_disconnected_hosts st' = hide_disconnected_hosts st.
Proof.
  unfold dragged. destruct (nodes st !! d) as [nd|];
    [|intros H; injection H as <-; by repeat split].
  destruct (String.eqb (Node.type nd) "switch").
  - intros H. injection H as <-.
    apply (each_invariant (fun s =>
      simulated <$> nodes s = simulated <$> nodes st
      /\ links s = links st /\ circles s = circles st
      /\ hide_unused_interfaces s = hide_unused_interfaces st
      /\ hide_disconnected_hosts s = hide_disconnected_hosts st)).
    + intros j s _ (Hsim & Hrest). split; [|exact Hrest].
      rewrite <- Hsim. apply simulated_alter. intros n.
      apply simulated_shift_interface.
    + split; [|done]. by apply simulated_alter.
  - destruct (String.eqb (Node.type nd) "interface").
    + destruct (get_interface_owner st nd) as [o|]; [|discriminate].
      destruct (nodes st !! o) as [owner|]; [|discriminate].
      destruct (if eq_undefined (Node.fx owner)
                then (Node.x owner, Node.y owner)
                else (Node.fx owner, Node.fy owner)) as [cx cy].
      intros H. injection H as <-. split; [|done]. by apply simulated_alter.
    + intros H. injection H as <-. split; [|done]. by apply simulated_alter.
Qed.

Lemma dragged_writes_only_pins_witness :
  exists st', dragged 0 (Event.mk 150 120) sample = Ok st'
              /\ simulated <$> nodes st' = simulated <$> nodes sample
              /\ circles st' = circles sample.
Proof.
  eexists. split; [reflexivity|].
  destruct (dragged_writes_only_pins sample _ 0 (Event.mk 150 120) eq_refl)
    as (Hsim & _ & Hc & _).
  by split.
Defined.

Lemma get_interface_owner_ext st1 st2 d1 d2 :
  links st1 = links st2 ->
  (forall j, name_of st1 j = name_of st2 j) ->
  Node.name d1 = Node.name d2 ->
  get_interface_owner st1 d1 = get_interface_owner st2 d2.
Proof.
  intros Hl Hn Hd. rewrite !get_interface_owner_last, Hl, Hd.
  do 2 f_equal. apply list_filter_iff. intros l. unfold owned_edge.
  by rewrite Hn.
Qed.

Lemma alter_alter_absorb {A : Type} (f g : A -> A) i (l : list A) :
  (forall a, f (g a) = f a) -> alter f i (alter g i l) = alter f i l.
Proof.
  intros Hfg. apply list_eq. intros k.
  destruct (decide (i = k)) as [->|Hik].
  - rewrite !list_lookup_alter_eq. destruct (l !! k); simpl; [|done].
    by rewrite Hfg.
  - by rewrite !list_lookup_alter_ne.
Qed.



(** X10: for an interface only the last drag event counts.  When its owner
    is another node, a drag event after an earlier one gives the state the
    later event alone would have given. *)
Theorem dragged_interface_last_event_wins
    (st st1 : state) (d o : nat) (nd : Node.t) (ev1 ev2 : Event.t) :
  nodes st !! d = Some nd ->
  Node.type nd = "interface" ->
  get_interface_owner st nd = Some o ->
  o <> d ->
  dragged d ev1 st = Ok st1 ->
  dragged d ev2 st1 = dragged d ev2 st.
Proof.
  intros Hd Hty Hown Hod Hrun.
  unfold dragged in Hrun. rewrite Hd, Hty, Hown in Hrun.
  change (String.eqb "interface" "switch") with false in Hrun.
  change (String.eqb "interface" "interface") with true in Hrun.
  cbv iota in Hrun.
  destruct (nodes st !! o) as [owner|] eqn:Ho; [|discriminate Hrun].
  destruct (if eq_undefined (Node.fx owner)
            then (Node.x owner, Node.y owner)
            else (Node.fx owner, Node.fy owner)) as [cx cy] eqn:Hc.
  injection Hrun as <-.
  set (f1 := fun n : Node.t => Node.set_fy _ (Node.set_fx _ n)).
  unfold dragged.
  rewrite lookup_update_node_eq, Hd. cbn [fmap option_fmap option_map].
  change (Node.type (f1 nd)) with (Node.type nd). rewrite Hty.
  change (String.eqb "interface" "switch") with false.
  change (String.eqb "interface" "interface") with true. cbv iota.
  rewrite (get_interface_owner_ext (update_node d f1 st) st (f1 nd) nd);
    [|reflexivity| |reflexivity].
  - rewrite Hown, lookup_update_node_ne, Ho, Hc by auto.
    f_equal. unfold update_node. apply state_eq; try reflexivity.
    simpl. by apply alter_alter_absorb.
  - intros i. by apply name_of_update_node.
Qed.

Lemma dragged_interface_last_event_wins_witness :
  exists st1,
    dragged 1 (Event.mk 90 250) sample = Ok st1
    /\ dragged 1 (Event.mk 10 20) st1 = dragged 1 (Event.mk 10 20) sample.
Proof.
  eexists. split; [reflexivity|].
  apply (dragged_interface_last_event_wins sample _ 1 0
           (fresh_node "interface" "s1-eth1" 130 100)
           (Event.mk 90 250) (Event.mk 10 20));
    try reflexivity.
  discriminate.
Defined.

(** ** More on the ring *)

Section RingMore.
Local Open Scope R_scope.

Lemma atan2R_origin : atan2R 0 0 = 0.
Proof.
  unfold atan2R. repeat (destruct (Rlt_dec _ _); try lra).
Qed.

(** X11: dragging an interface re-projects the pointer onto the ring along
    the ray from the owner's position through the pointer: the new pin is
    the owner's position plus the unit vector towards the pointer times
    [distance "interface"]. *)
Theorem dragged_interface_follows_pointer
    (st : state) (d o : nat) (nd owner : Node.t) (ev : Event.t) (cx cy : R) :
  nodes st !! d = Some nd ->
  Node.type nd = "interface" ->
  get_interface_owner st nd = Some o ->
  nodes st !! o = Some owner ->
  current_position owner = (num cx, num cy) ->
  Event.x ev - cx <> 0 \/ Event.y ev - cy <> 0 ->
  exists st' nd',
    dragged d ev st = Ok st'
    /\ nodes st' !! d = Some nd'
    /\ Node.fx nd'
       = num (cx + (Event.x ev - cx)
                   / euclidean_distance (Event.x ev, Event.y ev) (cx, cy)
                   * (20 + 10))
    /\ Node.fy nd'
       = num (cy + (Event.y ev - cy)
                   / euclidean_distance (Event.x ev, Event.y ev) (cx, cy)
                   * (20 + 10)).
Proof.
  intros Hd Hty Hown Ho Hpos Hptr.
  unfold dragged. rewrite Hd, Hty.
  change (String.eqb "interface" "switch") with false.
  change (String.eqb "interface" "interface") with true. cbv iota.
  rewrite Hown, Ho. unfold current_position in Hpos. rewrite Hpos.
  rewrite (radius_positioning_towards_pointer _ _ _ _ Hptr). cbn [fst snd].
  eexists _, _. split; [reflexivity|].
  split; [by rewrite lookup_update_node_eq, Hd|]. by split.
Qed.

(** X12: a pointer exactly on the centre has angle 0: the new position is
    the point of the ring to the right of the centre. *)
Theorem radius_positioning_at_centre (cx cy : R) :
  radius_positioning (num cx) (num cy) (num cx) (num cy)
  = (num (cx + (20 + 10)), num cy).
Proof.
  rewrite radius_positioning_num.
  replace (cy - cy) with 0 by ring. replace (cx - cx) with 0 by ring.
  rewrite atan2R_origin, cos_0, sin_0.
  f_equal; unfold num; do 2 f_equal; ring.
Qed.

(** X13: the projection fixes the ring.  A pointer that already lies at
    distance [distance "interface"] from the centre is returned as it is. *)
Theorem radius_positioning_on_ring (cx cy x y : R) :
  euclidean_distance (x, y) (cx, cy) = 20 + 10 ->
  radius_positioning (num cx) (num cy) (num x) (num y) = (num x, num y).
Proof.
  intros Hdist.
  assert (Hptr : x - cx <> 0 \/ y - cy <> 0).
  { destruct (Req_dec (x - cx) 0) as [Hx|Hx]; [|by left].
    destruct (Req_dec (y - cy) 0) as [Hy|Hy]; [|by right].
    exfalso. unfold euclidean_distance in Hdist. simpl in Hdist.
    rewrite Hx, Hy in Hdist.
    replace (0 * 0 + 0 * 0) with 0 in Hdist by ring.
    rewrite sqrt_0 in Hdist. lra. }
  rewrite (radius_positioning_towards_pointer _ _ _ _ Hptr), Hdist.
  f_equal; unfold num; do 2 f_equal; field.
Qed.

End RingMore.

Lemma dragged_interface_follows_pointer_witness :
  exists st' nd',
    dragged 1 (Event.mk 100 250) sample = Ok st'
    /\ nodes st' !! 1 = Some nd'
    /\ Node.fx nd'
       = num (100 + (100 - 100)
                    / euclidean_distance (100%R, 250%R) (100%R, 100%R)
                    * (20 + 10))
    /\ Node.fy nd'
       = num (100 + (250 - 100)
                    / euclidean_distance (100%R, 250%R) (100%R, 100%R)
                    * (20 + 10)).
Proof.
  apply (dragged_interface_follows_pointer sample 1 0
           (fresh_node "interface" "s1-eth1" 130 100)
           (pinned_node "switch" "00:00:00:00:00:00:00:01" 100 100)
           (Event.mk 100 250) 100 100); try reflexivity.
  right. simpl. lra.
Defined.

Lemma radius_positioning_on_ring_witness :
  radius_positioning (num 0) (num 0) (num (20 + 10)) (num 0)
  = (num (20 + 10), num 0).
Proof.
  apply radius_positioning_on_ring.
  unfold euclidean_distance. simpl.
  replace ((20 + 10 - 0) * (20 + 10 - 0) + (0 - 0) * (0 - 0))%R
    with ((20 + 10) * (20 + 10))%R by ring.
  apply sqrt_square. lra.
Defined.

(** ** More on the visibility toggles *)

(** X14: in any chart, well formed or not, and whatever the selector engine
    answers, a visibility toggle that does not throw touches neither a node,
    an edge, the id or the downlight class of a circle, nor a check box; the
    only thing a toggle can change is the class [invisible]. *)
Theorem toggles_change_only_invisible
    (query : selector_engine) (hide : bool) (st st' : state) :
  toggle_unused_interfaces query hide st = Ok st'
  \/ toggle_disconnected_hosts query hide st = Ok st' ->
  nodes st' = nodes st
  /\ links st' = links st
  /\ circle_ids st' = circle_ids st
  /\ downlights st' = downlights st
  /\ hide_unused_interfaces st' = hide_unused_interfaces st
  /\ hide_disconnected_hosts st' = hide_disconnected_hosts st.
Proof.
  intros [H|H];
    [apply toggle_unused_interfaces_kept in H
    |apply toggle_disconnected_hosts_kept in H];
    by destruct H as ((Hn & Hl & Hi & Hu & Hh) & Hd).
Qed.

Lemma toggles_change_only_invisible_witness :
  exists st',
    toggle_unused_interfaces id_only_engine true sample = Ok st'
    /\ nodes st' = nodes sample
    /\ downlights st' = downlights sample.
Proof.
  eexists. split; [reflexivity|].
  destruct (toggles_change_only_invisible id_only_engine true sample _
              (or_introl eq_refl)) as (Hn & _ & _ & Hd & _).
  by split.
Defined.

(** X15: in a chart where every node has its circle, no two circles share
    an id and every id is plain, "hide disconnected hosts" never throws and
    writes the class [invisible] with the given value on the circles of
    exactly the host nodes that are an end point of no edge at all; every
    other circle is left as it was. *)
Theorem toggle_disconnected_hosts_exact
    (query : selector_engine) (st : state) (hide : bool) :
  engine_ok query ->
  circles_match st ->
  NoDup (circle_ids st) ->
  plain_ids st = true ->
  exists st',
    toggle_disconnected_hosts query hide st = Ok st'
    /\ forall i c,
         circles st !! i = Some c ->
         circles st' !! i
         = Some (if disconnected_host st i
                 then Circle.set_invisible hide c else c).
Proof.
  intros Hq Hm Hnd Hp. eexists.
  split; [by apply toggle_disconnected_hosts_closed|].
  intros i c Hi. by rewrite lookup_classed_where, Hi.
Qed.

Lemma toggle_disconnected_hosts_exact_witness :
  exists st',
    toggle_disconnected_hosts id_only_engine true unlinked = Ok st'
    /\ circles st' !! 3 = Some (Circle.mk "node-host-h1" false true).
Proof.
  destruct (toggle_disconnected_hosts_exact id_only_engine unlinked true
              id_only_engine_ok eq_refl sample_ids_distinct eq_refl)
    as (st' & Hrun & Hc).
  exists st'. split; [exact Hrun|].
  exact (Hc 3 (Circle.mk "node-host-h1" false false) eq_refl).
Defined.

(** X16: the two toggles act on different circles, so they commute: in a
    chart where every node has its circle, no two circles share an id and
    every id is plain, running them in either order throws in neither and
    gives the same state. *)
Theorem toggles_commute
    (query : selector_engine) (st : state) (h1 h2 : bool) :
  engine_ok query ->
  circles_match st ->
  NoDup (circle_ids st) ->
  plain_ids st = true ->
  exists st',
    bind (toggle_disconnected_hosts query h2 st)
         (toggle_unused_interfaces query h1) = Ok st'
    /\ bind (toggle_unused_interfaces query h1 st)
            (toggle_disconnected_hosts query h2) = Ok st'.
Proof.
  intros Hq Hm Hnd Hp.
  destruct (selectable_classed_where (disconnected_host st)
              (Circle.set_invisible h2) st) as (Hm2 & Hnd2 & Hp2); try done.
  destruct (selectable_classed_where (unused_interface st)
              (Circle.set_invisible h1) st) as (Hm1 & Hnd1 & Hp1); try done.
  eexists.
  rewrite (toggle_disconnected_hosts_closed query Hq h2 st Hm Hnd Hp).
  rewrite (toggle_unused_interfaces_closed query Hq h1 st Hm Hnd Hp).
  cbn [bind].
  rewrite (toggle_unused_interfaces_closed query Hq h1 _ Hm2 Hnd2 Hp2).
  rewrite (toggle_disconnected_hosts_closed query Hq h2 _ Hm1 Hnd1 Hp1).
  split; [reflexivity|]. f_equal.
  apply state_eq; try reflexivity.
  apply list_eq. intros k. rewrite !lookup_classed_where.
  change (unused_interface (classed_where _ _ st) k)
    with (unused_interface st k).
  change (disconnected_host (classed_where _ _ st) k)
    with (disconnected_host st k).
  destruct (circles st !! k) as [c|]; [|reflexivity]. simpl.
  destruct (unused_interface st k) eqn:Hunused.
  - by rewrite (unused_not_disconnected st k Hunused).
  - reflexivity.
Qed.

Lemma toggles_commute_witness :
  exists st',
    bind (toggle_disconnected_hosts id_only_engine false unlinked)
         (toggle_unused_interfaces id_only_engine true) = Ok st'
    /\ bind (toggle_unused_interfaces id_only_engine true unlinked)
            (toggle_disconnected_hosts id_only_engine false) = Ok st'.
Proof.
  exact (toggles_commute id_only_engine unlinked true false
           id_only_engine_ok eq_refl sample_ids_distinct eq_refl).
Defined.

(** X17: a toggle is idempotent: in a chart where every node has its circle,
    no two circles share an id and every id is plain, switching "hide unused
    interfaces" to a value it was just switched to changes nothing. *)
Theorem toggle_unused_interfaces_idempotent
    (query : selector_engine) (st : state) (hide : bool) :
  engine_ok query ->
  circles_match st ->
  NoDup (circle_ids st) ->
  plain_ids st = true ->
  exists st',
    toggle_unused_interfaces query hide st = Ok st'
    /\ toggle_unused_interfaces query hide st' = Ok st'.
Proof.
  intros Hq Hm Hnd Hp.
  destruct (selectable_classed_where (unused_interface st)
              (Circle.set_invisible hide) st) as (Hm1 & Hnd1 & Hp1); try done.
  eexists. split; [by apply toggle_unused_interfaces_closed|].
  rewrite (toggle_unused_interfaces_closed query Hq hide _ Hm1 Hnd1 Hp1).
  f_equal. apply state_eq; try reflexivity.
  apply list_eq. intros k. rewrite !lookup_classed_where.
  change (unused_interface (classed_where _ _ st) k)
    with (unused_interface st k).
  destruct (circles st !! k) as [c|]; [|reflexivity]. simpl.
  by destruct (unused_interface st k).
Qed.

Lemma toggle_unused_interfaces_idempotent_witness :
  exists st',
    toggle_unused_interfaces id_only_engine true sample = Ok st'
    /\ toggle_unused_interfaces id_only_engine true st' = Ok st'.
Proof.
  exact (toggle_unused_interfaces_idempotent id_only_engine sample true
           id_only_engine_ok eq_refl sample_ids_distinct eq_refl).
Defined.

(** ** Highlighting *)

Lemma circles_classed_all p set st k :
  circles (classed_all p set st) !! k
  = (fun c => if String.prefix p (Circle.id c) then set c else c)
      <$> circles st !! k.
Proof. unfold classed_all. simpl. apply list_lookup_fmap. Qed.


Lemma prefix_empty s : String.prefix "" s = true.
Proof. by destruct s. Qed.

Lemma prefix_node_id type name :
  String.prefix "node-" (node_id type name) = true.
Proof. unfold node_id. cbn. apply prefix_empty. Qed.








(** X19: a click on the empty canvas.  In a chart where every node has its
    circle, [highlight_all_nodes] removes the downlight class from every
    circle, keeps their ids and their [invisible] class, touches no node,
    and resets the detail panel. *)
Theorem highlight_all_nodes_clears (st : state) :
  circles_match st ->
  (forall i c,
     circles st !! i = Some c ->
     circles (fst (highlight_all_nodes st)) !! i
     = Some (Circle.mk (Circle.id c) false (Circle.invisible c)))
  /\ nodes (fst (highlight_all_nodes st)) = nodes st
  /\ links (fst (highlight_all_nodes st)) = links st
  /\ snd (highlight_all_nodes st)
     = [SetHtml "#context-target" "Loading ...";
        Click "#tab_terminal_button a"].
Proof.
  intros Hm. split; [|done].
  intros i c Hc. unfold highlight_all_nodes. cbn [fst].
  rewrite circles_classed_all, Hc. cbn [fmap option_fmap option_map].
  assert (Hid : exists n, Circle.id c = node_id (Node.type n) (Node.name n)).
  { assert (H : node_ids st !! i = Some (Circle.id c)).
    { rewrite <- Hm. unfold circle_ids. by rewrite list_lookup_fmap, Hc. }
    unfold node_ids in H. rewrite list_lookup_fmap in H.
    destruct (nodes st !! i) as [n|]; [|discriminate H].
    injection H as H. eauto. }
  destruct Hid as [n Hid].
  assert (Hp : String.prefix "node-" (Circle.id c) = true)
    by (rewrite Hid; apply prefix_node_id).
  by rewrite Hp.
Qed.

Lemma highlight_all_nodes_clears_witness :
  circles (fst (highlight_all_nodes (downlight_all_interfaces sample))) !! 2
  = Some (Circle.mk "node-interface-s1-eth2" false false).
Proof.
  destruct (highlight_all_nodes_clears (downlight_all_interfaces sample)
              eq_refl) as (Hclear & _).
  exact (Hclear 2 (Circle.mk "node-interface-s1-eth2" true false) eq_refl).
Defined.

(** ** More on capturing a layout *)

(** X20: in a browser whose selector engine finds plain ids and a chart
    whose ids are plain, capturing the layout throws exactly when some live
    node has no circle under its id in the page (before the chart is drawn,
    say); what it throws then is a [TypeError], and it throws nothing
    otherwise. *)
Theorem get_current_layout_error_iff
    (query : selector_engine) (st : state) :
  engine_ok query ->
  plain_ids st = true ->
  (get_current_layout query st = TypeError <->
   exists n, n ∈ nodes st
             /\ node_id (Node.type n) (Node.name n) ∉ circle_ids st)
  /\ get_current_layout query st <> SyntaxError.
Proof.
  intros Hq Hp.
  destruct (capture_loop_error query Hq st (nodes st) ∅) as [Herr Hsyn].
  { intros n Hn. apply list_elem_of_lookup_1 in Hn as [idx Hidx].
    by apply (plain_ids_lookup st idx). }
  rewrite <- Herr. unfold get_current_layout.
  destruct (each_r (nodes st) (capture_node query st) ∅); cbn [bind];
    (split; [split|]); (discriminate || reflexivity || done).
Qed.

Lemma get_current_layout_error_iff_witness :
  get_current_layout id_only_engine
    (mkState sample_nodes sample_links [] false false) = TypeError.
Proof.
  apply (get_current_layout_error_iff id_only_engine
           (mkState sample_nodes sample_links [] false false)
           id_only_engine_ok eq_refl).
  exists (fresh_node "host" "h1" 200 100). split.
  - change (fresh_node "host" "h1" 200 100 ∈ sample_nodes).
    unfold sample_nodes. do 3 apply list_elem_of_further.
    apply list_elem_of_here.
  - apply not_elem_of_nil.
Defined.

(** X21: a captured layout has one entry per name of a live node other than
    "__proto__" and no other entry, and each entry is the record of a live
    node of that name: its name, type, [x], [y], [fx] and [fy].  A node
    named "__proto__" leaves no entry. *)
Theorem get_current_layout_entries
    (query : selector_engine) (st : state) (layout : Layout.t) :
  get_current_layout query st = Ok layout ->
  (forall k, is_Some (Layout.nodes layout !! k) <->
             k ∈ Node.name <$> nodes st /\ k <> "__proto__")
  /\ forall k r,
       Layout.nodes layout !! k = Some r ->
       exists n, n ∈ nodes st /\ Node.name n = k
                 /\ r = snapshot n (Layout.downlight r).
Proof.
  unfold get_current_layout.
  destruct (each_r (nodes st) (capture_node query st) ∅) as [m| |] eqn:Hrun;
    [|discriminate..].
  cbn [bind]. intros H. injection H as <-. cbn [Layout.nodes].
  destruct (capture_loop_keys query _ _ _ _ Hrun) as [Hdom Hentries]. split.
  - intros k. rewrite Hdom. split; [|by left].
    intros [H|[v Hv]]; [exact H|]. by rewrite lookup_empty in Hv.
  - intros k r Hk. destruct (Hentries k r Hk) as [Hempty|H]; [|exact H].
    by rewrite lookup_empty in Hempty.
Qed.

Lemma get_current_layout_entries_witness :
  exists layout,
    get_current_layout id_only_engine sample = Ok layout
    /\ is_Some (Layout.nodes layout !! "h1").
Proof.
  destruct (get_current_layout_total id_only_engine id_only_engine_ok sample
              eq_refl eq_refl) as [layout Hget].
  exists layout. split; [exact Hget|].
  destruct (get_current_layout_entries id_only_engine sample layout Hget)
    as [Hdom _].
  apply Hdom. split; [|discriminate].
  change ("h1" ∈ ["00:00:00:00:00:00:00:01"; "s1-eth1"; "s1-eth2"; "h1"]).
  do 3 apply list_elem_of_further. apply list_elem_of_here.
Defined.

(** ** More on loading a layout *)

(** X22: loading a layout, seen from the nodes.  Whatever the layout, the
    chart and the selector engine, if loading does not throw then
    afterwards every live node whose name the layout holds has the stored
    [x], [y], [fx] and [fy]; a node that goes by the name of a member of
    [Object.prototype] which the layout does not hold has the four of them
    [undefined]; every other node is as before; and the order, names and
    types of the nodes and the edges are unchanged. *)
Theorem restore_layout_nodes
    (query : selector_engine) (layout : Layout.t) (st st' : state) :
  restore_layout query layout st = Ok st' ->
  nodes st' = restore_fields layout <$> nodes st
  /\ links st' = links st.
Proof.
  intros Hrun.
  apply restore_layout_inv in Hrun as (s1 & Hloop & Hn & Hl & _).
  apply restore_loop_kept in Hloop as (Hn1 & Hl1 & _).
  split; congruence.
Qed.

Lemma restore_layout_nodes_witness :
  exists st',
    restore_layout id_only_engine switch_only_layout sample = Ok st'
    /\ nodes st' = restore_fields switch_only_layout <$> nodes sample.
Proof.
  destruct (restore_layout_total id_only_engine id_only_engine_ok
              switch_only_layout sample eq_refl sample_ids_distinct eq_refl)
    as [st' Hrun].
  exists st'. split; [exact Hrun|].
  by destruct (restore_layout_nodes id_only_engine switch_only_layout
                 sample st' Hrun).
Defined.

(** X23: loading a layout reconciles the two check boxes: if it does not
    throw, afterwards each box shows the value stored in the layout, a box
    being clicked only when it showed the other value. *)
Theorem restore_layout_checkboxes
    (query : selector_engine) (layout : Layout.t) (st st' : state) :
  restore_layout query layout st = Ok st' ->
  hide_unused_interfaces st'
  = Layout.hide_unused_interfaces (Layout.settings layout)
  /\ hide_disconnected_hosts st'
     = Layout.hide_disconnected_hosts (Layout.settings layout).
Proof.
  intros Hrun.
  by apply restore_layout_inv in Hrun as (s1 & _ & _ & _ & _ & _ & Hu & Hh).
Qed.

Lemma restore_layout_checkboxes_witness :
  exists st',
    restore_layout id_only_engine switch_only_layout sample = Ok st'
    /\ hide_unused_interfaces st' = true
    /\ hide_disconnected_hosts st' = false.
Proof.
  destruct (restore_layout_total id_only_engine id_only_engine_ok
              switch_only_layout sample eq_refl sample_ids_distinct eq_refl)
    as [st' Hrun].
  exists st'. split; [exact Hrun|].
  exact (restore_layout_checkboxes id_only_engine switch_only_layout
           sample st' Hrun).
Defined.

(** X24: loading a layout, seen from the circles.  In a chart where every
    node has its circle, no two circles share an id and every id is plain,
    loading does not throw, and the circle of a live node whose name the
    layout holds ends with the stored downlight value. *)
Theorem restore_layout_downlight
    (query : selector_engine) (layout : Layout.t) (st : state)
    (i : nat) (n : Node.t) (r : Layout.node_data) :
  engine_ok query ->
  circles_match st ->
  NoDup (circle_ids st) ->
  plain_ids st = true ->
  nodes st !! i = Some n ->
  Layout.nodes layout !! Node.name n = Some r ->
  exists st',
    restore_layout query layout st = Ok st'
    /\ Circle.downlight <$> circles st' !! i = Some (Layout.downlight r).
Proof.
  intros Hq Hm Hnd Hp Hi Hr.
  destruct (circle_of_node st i n Hm Hi) as (c & Hc & _).
  destruct (restore_layout_total query Hq layout st Hm Hnd Hp) as [st' Hrun].
  exists st'. split; [exact Hrun|].
  apply restore_layout_inv in Hrun as (s1 & Hloop & _ & _ & _ & Hd & _).
  rewrite (restore_loop_closed query Hq layout st Hm Hnd Hp) in Hloop.
  injection Hloop as <-.
  rewrite <- list_lookup_fmap.
  change (downlights st' !! i = Some (Layout.downlight r)).
  rewrite Hd. unfold downlights, restored. simpl.
  rewrite list_lookup_fmap, list_lookup_imap, Hc. simpl.
  unfold restore_downlight, get_property. by rewrite Hi, Hr.
Qed.

Lemma restore_layout_downlight_witness :
  exists st',
    restore_layout id_only_engine switch_only_layout sample = Ok st'
    /\ Circle.downlight <$> circles st' !! 0 = Some true.
Proof.
  apply (restore_layout_downlight id_only_engine switch_only_layout sample 0
           (pinned_node "switch" "00:00:00:00:00:00:00:01" 100 100)
           (Layout.mkData "00:00:00:00:00:00:00:01" "switch"
                          (num 50) (num 50) (num 50) (num 50) true)).
  - exact id_only_engine_ok.
  - reflexivity.
  - exact sample_ids_distinct.
  - reflexivity.
  - reflexivity.
  - apply lookup_singleton_eq.
Defined.

(** ** More on the selection control *)

Lemma each_push_all {A B : Type} (f : A -> B) l acc :
  each l (fun a pushed => (pushed ++ [f a])%list) acc = (acc ++ (f <$> l))%list.
Proof.
  revert acc. induction l as [|a l IH]; intros acc.
  - rewrite each_nil. simpl. by rewrite app_nil_r.
  - rewrite each_cons, IH, fmap_cons. by rewrite <- app_assoc.
Qed.

(** X25: for any array the store sends, [load_layouts] raises no notice: it
    empties the control, appends the placeholder and then one entry per
    name, in the order of the array and with its repetitions. *)
Theorem load_layouts_lists_names (items : list string) :
  load_layouts_success (Names items)
  = ControlEmpty "#savedLayouts"
    :: ControlAppend "#savedLayouts"
         ("<option selected=" ++ dquote ++ "true" ++ dquote
          ++ " disabled=" ++ dquote ++ "disabled" ++ dquote
          ++ ">Selecione seu Layout</option>")
    :: (ControlAppendOption "#savedLayouts" <$> items)
  /\ forall message, Alert message ∉ load_layouts_success (Names items).
Proof.
  assert (Heq : load_layouts_success (Names items)
    = ControlEmpty "#savedLayouts"
      :: ControlAppend "#savedLayouts"
           ("<option selected=" ++ dquote ++ "true" ++ dquote
            ++ " disabled=" ++ dquote ++ "disabled" ++ dquote
            ++ ">Selecione seu Layout</option>")
      :: (ControlAppendOption "#savedLayouts" <$> items)).
  { unfold load_layouts_success.
    by rewrite (each_push_all (ControlAppendOption "#savedLayouts")). }
  split; [exact Heq|].
  intros message Hin. rewrite Heq in Hin.
  apply elem_of_cons in Hin as [Hin|Hin]; [discriminate Hin|].
  apply elem_of_cons in Hin as [Hin|Hin]; [discriminate Hin|].
  apply list_elem_of_fmap in Hin as (item & Hin & _).
  discriminate Hin.
Qed.

(** ** More on the identifiers of the circles *)

(** X26: the identifiers are free of collisions under the naming
    discipline.  When node names are unique, no name has an underscore
    directly followed by an underscore or a colon, and every type is
    "switch", "interface" or "host", two different nodes never get the same
    circle id. *)
Theorem node_ids_distinct (st : state) (i j : nat) (n m : Node.t) :
  well_named st ->
  nodes st !! i = Some n ->
  nodes st !! j = Some m ->
  i <> j ->
  node_id (Node.type n) (Node.name n) <> node_id (Node.type m) (Node.name m).
Proof.
  intros [Hnames Hwf] Hi Hj Hij Hid.
  destruct (Hwf n (list_elem_of_lookup_2 _ _ _ Hi)) as [Ht1 Hr1].
  destruct (Hwf m (list_elem_of_lookup_2 _ _ _ Hj)) as [Ht2 Hr2].
  destruct (node_id_inj _ _ _ _ Ht1 Ht2 Hid) as [_ Hfix].
  apply (fix_name_inj _ _ Hr1 Hr2) in Hfix.
  apply Hij. apply (NoDup_lookup _ i j (Node.name n) Hnames).
  - by rewrite list_lookup_fmap, Hi.
  - rewrite list_lookup_fmap, Hj. simpl. by rewrite Hfix.
Qed.

Lemma sample_well_named : well_named sample.
Proof.
  split.
  - change (NoDup ["00:00:00:00:00:00:00:01"; "s1-eth1"; "s1-eth2"; "h1"]).
    solve_NoDup.
  - intros n Hn. change (n ∈ sample_nodes) in Hn. unfold sample_nodes in Hn.
    repeat (apply elem_of_cons in Hn as [->|Hn]; [by split|]).
    by apply elem_of_nil in Hn.
Qed.

Lemma node_ids_distinct_witness :
  node_id "interface" "s1-eth1" <> node_id "interface" "s1-eth2".
Proof.
  apply (node_ids_distinct sample 1 2
           (fresh_node "interface" "s1-eth1" 130 100)
           (pinned_node "interface" "s1-eth2" 100 130) sample_well_named);
    [reflexivity | reflexivity | discriminate].
Defined.

(** ** A node attached several times to a switch *)

Section Repeated.
Local Open Scope R_scope.



End Repeated.

